(** * geomstats: flat metric, permutation actions, AAC estimators and the
      Weiszfeld geometric median

    A shallow embedding of
    - [geomstats/learning/aac.py] ([AACFrechet], [AACGPC], [AACRegression]),
    - [geomstats/learning/geometric_median.py] ([WeiszfeldAlgorithm]),
    - [geomstats/geometry/flat_riemannian_metric.py] ([exp], [log], [geodesic]),
    - [geomstats/geometry/group_action.py] (the permutation actions),
    followed by the properties of these functions.

    Python exceptions are values of [exn]; a call returns an [outcome]
    together with the events it emitted (logged warnings, printed lines,
    divisions requested from the array backend).  Python floats that only
    steer control flow are rationals; the arithmetic of the flat metric and
    of the matrices is stated over a scalar interface, with instances for
    64-bit integers, unbounded integers, exact rationals and binary64
    floats. *)

From Stdlib Require Import ZArith QArith Qabs Qcanon Lia Lqa String.
From Stdlib Require Import Floats.PrimFloat.
From stdpp Require Import base list.

Local Open Scope Z_scope.

(** ** Exceptions, outcomes and the event log *)

Inductive exn : Type :=
| ValueError (msg : string)
| AttributeError (attr : string)
| UnboundLocalError (var : string)
| IndexError
| TypeError
| ZeroDivisionError.

(** [Diverges] is the outcome of a [while] loop that is still running when
    the fuel given to it is used up; no [fit] below ever produces it. *)
Inductive outcome (A : Type) : Type :=
| Returns (a : A)
| Raises (e : exn)
| Diverges.
Arguments Returns {A} a.
Arguments Raises {A} e.
Arguments Diverges {A}.

Definition outcome_map {A B} (f : A → B) (o : outcome A) : outcome B :=
  match o with
  | Returns a => Returns (f a)
  | Raises e => Raises e
  | Diverges => Diverges
  end.

Definition outcome_bind {A B} (o : outcome A) (k : A → outcome B) : outcome B :=
  match o with
  | Returns a => k a
  | Raises e => Raises e
  | Diverges => Diverges
  end.

(** What a call leaves behind besides its result. [P] is the type of points. *)
Inductive event (P : Type) : Type :=
| LogWarning (max_iter : Z)
    (** logging.warning("Maximum number of iterations {max_iter} reached. ...") *)
| Printed (iter : Z) (median : P)
    (** print("iteration: {} curr_median: {}") *)
| Divided (num den : list Q)
    (** gs.divide(num, den) *).
Arguments LogWarning {P} max_iter.
Arguments Printed {P} iter median.
Arguments Divided {P} num den.

Definition is_warning {P} (e : event P) : bool :=
  match e with LogWarning _ => true | _ => false end.

(** The monad of the embedding: a log of events and an outcome. *)
Definition M (P A : Type) : Type := list (event P) * outcome A.

Definition ret {P A} (a : A) : M P A := ([], Returns a).
Definition raise {P A} (e : exn) : M P A := ([], Raises e).
Definition emit {P} (e : event P) : M P unit := ([e], Returns tt).

Definition bind {P A B} (m : M P A) (k : A → M P B) : M P B :=
  match m with
  | (l, Returns a) => let '(l', r) := k a in (l ++ l', r)
  | (l, Raises e) => (l, Raises e)
  | (l, Diverges) => (l, Diverges)
  end.

Declare Scope py_scope.
Delimit Scope py_scope with py.
Notation "'do' x <- m ; k" := (bind m (fun x => k))
  (at level 10, x name, m at level 100, k at level 200, only parsing) : py_scope.
Notation "m ;; k" := (bind m (fun _ => k))
  (at level 100, k at level 200, right associativity, only parsing) : py_scope.
Local Open Scope py_scope.

Definition log_of {P A} (m : M P A) : list (event P) := fst m.
Definition result_of {P A} (m : M P A) : outcome A := snd m.

(** ** Python scalars used for control flow *)

(** [a > b] on numbers. *)
Definition Qgtb (a b : Q) : bool := negb (Qle_bool a b).

(** [gs.sum] of a one-dimensional array. *)
Definition gs_sum (l : list Q) : Q := foldr Qplus 0%Q l.

(** ** [random.choice]

    The ambient generator is passed explicitly: [r] is the number the global
    random state delivers to this call; [random.choice(seq)] returns
    [seq[randbelow(len(seq))]], the index being [r] reduced to the range of
    the sequence, and raises [IndexError] on an empty sequence. *)
Definition random_choice {P A} (r : nat) (seq : list A) : M P A :=
  match seq !! (r mod length seq)%nat with
  | Some x => ret x
  | None => raise IndexError
  end.

(** ** [while cond: body] with fuel *)

Fixpoint while_loop {S : Type} (cond : S → bool) (body : S → S)
    (fuel : nat) (s : S) {struct fuel} : option S :=
  if cond s then
    match fuel with
    | O => None
    | Datatypes.S n => while_loop cond body n (body s)
    end
  else Some s.

(** [body] applied [n] times. *)
Fixpoint iterate {S : Type} (body : S → S) (n : nat) (s : S) : S :=
  match n with
  | O => s
  | Datatypes.S k => iterate body k (body s)
  end.

(** ** [geomstats/learning/aac.py] *)

Definition _warn_max_iterations {P} (iteration max_iter : Z) : M P unit :=
  if iteration =? max_iter then emit (LogWarning max_iter) else ret tt.

(** The first argument of [align_point_to_point]: one point, or one target
    per sample. *)
Inductive reference (P : Type) : Type :=
| OnePoint (p : P)
| PerSample (ps : list P).
Arguments OnePoint {P} p.
Arguments PerSample {P} ps.

Module AACFrechet.

(** What [fit] asks of [self.metric]. *)
Record Metric (P : Type) : Type := {
  align_point_to_point : P → list P → list P;
  total_space_metric_dist : P → P → Q
}.
Arguments align_point_to_point {P} _ _ _.
Arguments total_space_metric_dist {P} _ _ _.

(** [mean_estimator X] is [self.mean_estimator.fit(X).estimate_]. *)
Record t (P : Type) : Type := {
  metric : Metric P;
  epsilon : Q;
  max_iter : Z;
  init_point : option P;
  mean_estimator : list P → P;
  estimate_ : option P;
  n_iter_ : option Z
}.
Arguments metric {P} _.
Arguments epsilon {P} _.
Arguments max_iter {P} _.
Arguments init_point {P} _.
Arguments mean_estimator {P} _.
Arguments estimate_ {P} _.
Arguments n_iter_ {P} _.

Definition __init__ {P} (metric : Metric P) (epsilon : Q) (max_iter : Z)
    (init_point : option P) (mean_estimator : list P → P) : t P :=
  {| metric := metric; epsilon := epsilon; max_iter := max_iter;
     init_point := init_point; mean_estimator := mean_estimator;
     estimate_ := None; n_iter_ := None |}.

(** The local variables of [fit]; [new_estimate] is unbound ([None]) until
    the loop body has run once. *)
Record locals (P : Type) : Type := {
  previous_estimate : P;
  aligned_X : list P;
  error : Q;
  iteration : Z;
  new_estimate : option P
}.
Arguments previous_estimate {P} _.
Arguments aligned_X {P} _.
Arguments error {P} _.
Arguments iteration {P} _.
Arguments new_estimate {P} _.

Definition initial_reference {P} (self : t P) (r : nat) (X : list P) : M P P :=
  match init_point self with
  | None => random_choice r X
  | Some p => ret p
  end.

Definition loop_cond {P} (self : t P) (st : locals P) : bool :=
  Qgtb (error st) (epsilon self) && (iteration st <? max_iter self).

Definition loop_body {P} (self : t P) (st : locals P) : locals P :=
  let iteration' := iteration st + 1 in
  let aligned_X' :=
    align_point_to_point (metric self) (previous_estimate st) (aligned_X st) in
  let new_estimate' := mean_estimator self aligned_X' in
  let error' :=
    total_space_metric_dist (metric self) (previous_estimate st) new_estimate' in
  {| previous_estimate := new_estimate'; aligned_X := aligned_X';
     error := error'; iteration := iteration';
     new_estimate := Some new_estimate' |}.

Definition loop_entry {P} (self : t P) (previous_estimate : P) (X : list P)
    : locals P :=
  {| previous_estimate := previous_estimate; aligned_X := X;
     error := (epsilon self + 1)%Q; iteration := 0; new_estimate := None |}.

Definition run_loop {P} (self : t P) (previous_estimate : P) (X : list P)
    : M P (locals P) :=
  match while_loop (loop_cond self) (loop_body self)
          (Z.to_nat (max_iter self)) (loop_entry self previous_estimate X) with
  | Some st => ret st
  | None => ([], Diverges)
  end.

Definition finish {P} (self : t P) (st : locals P) : M P (t P) :=
  _warn_max_iterations (iteration st) (max_iter self) ;;
  match new_estimate st with
  | None => raise (UnboundLocalError "new_estimate")
  | Some e =>
      ret {| metric := metric self; epsilon := epsilon self;
             max_iter := max_iter self; init_point := init_point self;
             mean_estimator := mean_estimator self;
             estimate_ := Some e; n_iter_ := Some (iteration st) |}
  end.

Definition fit {P} (self : t P) (r : nat) (X : list P) : M P (t P) :=
  do previous_estimate <- initial_reference self r X;
  do st <- run_loop self previous_estimate X;
  finish self st.

End AACFrechet.

Module AACGPC.

(** What [fit] asks of [self.metric]; [G] is the type of geodesics,
    [geodesic initial_point initial_tangent_vec] being
    [self.metric.total_space_metric.geodesic]. *)
Record Metric (P G : Type) : Type := {
  align_point_to_point : P → list P → list P;
  align_point_to_geodesic : G → list P → list P;
  total_space_metric_geodesic : P → P → G
}.
Arguments align_point_to_point {P G} _ _ _.
Arguments align_point_to_geodesic {P G} _ _ _.
Arguments total_space_metric_geodesic {P G} _ _ _.

(** [WrappedPCA]: [pca_fit X] is the fitted state of the solver after
    [fit(X)]; the three readers are [explained_variance_ratio_[0]],
    [reshaped_mean_] and [reshaped_components_[0]]. *)
Record WrappedPCA (P S : Type) : Type := {
  pca_fit : list P → S;
  explained_variance_ratio_0 : S → Q;
  reshaped_mean_ : S → P;
  reshaped_components_0 : S → P
}.
Arguments pca_fit {P S} _ _.
Arguments explained_variance_ratio_0 {P S} _ _.
Arguments reshaped_mean_ {P S} _ _.
Arguments reshaped_components_0 {P S} _ _.

(** [fitted] is the state [self.pca_solver] holds, [None] before any fit. *)
Record t (P G S : Type) : Type := {
  metric : Metric P G;
  epsilon : Q;
  max_iter : Z;
  init_point : option P;
  pca_solver : WrappedPCA P S;
  fitted : option S
}.
Arguments metric {P G S} _.
Arguments epsilon {P G S} _.
Arguments max_iter {P G S} _.
Arguments init_point {P G S} _.
Arguments pca_solver {P G S} _.
Arguments fitted {P G S} _.

Definition __init__ {P G S} (metric : Metric P G) (pca_solver : WrappedPCA P S)
    (epsilon : Q) (max_iter : Z) (init_point : option P) : t P G S :=
  {| metric := metric; epsilon := epsilon; max_iter := max_iter;
     init_point := init_point; pca_solver := pca_solver; fitted := None |}.

Record locals (P S : Type) : Type := {
  aligned_X : list P;
  solver : S;
  previous_expl : Q;
  error : Q;
  iteration : Z
}.
Arguments aligned_X {P S} _.
Arguments solver {P S} _.
Arguments previous_expl {P S} _.
Arguments error {P S} _.
Arguments iteration {P S} _.

Definition initial_reference {P G S} (self : t P G S) (r : nat) (X : list P)
    : M P P :=
  match init_point self with
  | None => random_choice r X
  | Some p => ret p
  end.

Definition loop_cond {P G S} (self : t P G S) (st : locals P S) : bool :=
  Qgtb (error st) (epsilon self) && (iteration st <? max_iter self).

Definition loop_body {P G S} (self : t P G S) (st : locals P S) : locals P S :=
  let iteration' := iteration st + 1 in
  let mean := reshaped_mean_ (pca_solver self) (solver st) in
  let direc := reshaped_components_0 (pca_solver self) (solver st) in
  let geodesic := total_space_metric_geodesic (metric self) mean direc in
  let aligned_X' :=
    align_point_to_geodesic (metric self) geodesic (aligned_X st) in
  let solver' := pca_fit (pca_solver self) aligned_X' in
  let expl_ := explained_variance_ratio_0 (pca_solver self) solver' in
  {| aligned_X := aligned_X'; solver := solver';
     previous_expl := expl_; error := (expl_ - previous_expl st)%Q;
     iteration := iteration' |}.

Definition loop_entry {P G S} (self : t P G S) (x : P) (X : list P)
    : locals P S :=
  let aligned_X := align_point_to_point (metric self) x X in
  let solver := pca_fit (pca_solver self) aligned_X in
  {| aligned_X := aligned_X; solver := solver;
     previous_expl := explained_variance_ratio_0 (pca_solver self) solver;
     error := (epsilon self + 1)%Q; iteration := 0 |}.

Definition run_loop {P G S} (self : t P G S) (x : P) (X : list P)
    : M P (locals P S) :=
  match while_loop (loop_cond self) (loop_body self)
          (Z.to_nat (max_iter self)) (loop_entry self x X) with
  | Some st => ret st
  | None => ([], Diverges)
  end.

Definition finish {P G S} (self : t P G S) (st : locals P S) : M P (t P G S) :=
  _warn_max_iterations (iteration st) (max_iter self) ;;
  ret {| metric := metric self; epsilon := epsilon self;
         max_iter := max_iter self; init_point := init_point self;
         pca_solver := pca_solver self; fitted := Some (solver st) |}.

Definition fit {P G S} (self : t P G S) (r : nat) (X : list P) : M P (t P G S) :=
  do x <- initial_reference self r X;
  do st <- run_loop self x X;
  finish self st.

End AACGPC.

Module AACRegression.

(** What [fit] asks of [self.metric]; [dist] is batched, one distance per
    sample. *)
Record Metric (P : Type) : Type := {
  align_point_to_point : reference P → list P → list P;
  dist : list P → list P → list Q
}.
Arguments align_point_to_point {P} _ _ _.
Arguments dist {P} _ _ _.

(** [WrappedLinearRegression] over a feature type [F]: [regressor_fit X y]
    is the fitted state after [fit(X, y)]. *)
Record WrappedLinearRegression (F P R : Type) : Type := {
  regressor_fit : F → list P → R;
  regressor_predict : R → F → list P
}.
Arguments regressor_fit {F P R} _ _ _.
Arguments regressor_predict {F P R} _ _ _.

Record t (F P R : Type) : Type := {
  metric : Metric P;
  epsilon : Q;
  max_iter : Z;
  init_point : option P;
  regressor : WrappedLinearRegression F P R;
  fitted : option R
}.
Arguments metric {F P R} _.
Arguments epsilon {F P R} _.
Arguments max_iter {F P R} _.
Arguments init_point {F P R} _.
Arguments regressor {F P R} _.
Arguments fitted {F P R} _.

Definition __init__ {F P R} (metric : Metric P)
    (regressor : WrappedLinearRegression F P R)
    (epsilon : Q) (max_iter : Z) (init_point : option P) : t F P R :=
  {| metric := metric; epsilon := epsilon; max_iter := max_iter;
     init_point := init_point; regressor := regressor; fitted := None |}.

Record locals (P R : Type) : Type := {
  aligned_y : list P;
  model : R;
  previous_y_pred : list P;
  error : Q;
  iteration : Z
}.
Arguments aligned_y {P R} _.
Arguments model {P R} _.
Arguments previous_y_pred {P R} _.
Arguments error {P R} _.
Arguments iteration {P R} _.

Definition initial_reference {F P R} (self : t F P R) (r : nat) (y : list P)
    : M P P :=
  match init_point self with
  | None => random_choice r y
  | Some p => ret p
  end.

Definition loop_cond {F P R} (self : t F P R) (st : locals P R) : bool :=
  Qgtb (error st) (epsilon self) && (iteration st <? max_iter self).

Definition loop_body {F P R} (self : t F P R) (X : F) (st : locals P R)
    : locals P R :=
  let iteration' := iteration st + 1 in
  let aligned_y' :=
    align_point_to_point (metric self) (PerSample (previous_y_pred st))
      (aligned_y st) in
  let model' := regressor_fit (regressor self) X aligned_y' in
  let y_pred := regressor_predict (regressor self) model' X in
  {| aligned_y := aligned_y'; model := model'; previous_y_pred := y_pred;
     error := gs_sum (dist (metric self) (previous_y_pred st) y_pred);
     iteration := iteration' |}.

Definition loop_entry {F P R} (self : t F P R) (X : F) (y_ : P) (y : list P)
    : locals P R :=
  let aligned_y := align_point_to_point (metric self) (OnePoint y_) y in
  let model := regressor_fit (regressor self) X aligned_y in
  {| aligned_y := aligned_y; model := model;
     previous_y_pred := regressor_predict (regressor self) model X;
     error := (epsilon self + 1)%Q; iteration := 0 |}.

Definition run_loop {F P R} (self : t F P R) (X : F) (y_ : P) (y : list P)
    : M P (locals P R) :=
  match while_loop (loop_cond self) (loop_body self X)
          (Z.to_nat (max_iter self)) (loop_entry self X y_ y) with
  | Some st => ret st
  | None => ([], Diverges)
  end.

Definition finish {F P R} (self : t F P R) (st : locals P R) : M P (t F P R) :=
  _warn_max_iterations (iteration st) (max_iter self) ;;
  ret {| metric := metric self; epsilon := epsilon self;
         max_iter := max_iter self; init_point := init_point self;
         regressor := regressor self; fitted := Some (model st) |}.

Definition fit {F P R} (self : t F P R) (r : nat) (X : F) (y : list P)
    : M P (t F P R) :=
  do y_ <- initial_reference self r y;
  do st <- run_loop self X y_ y;
  finish self st.

End AACRegression.

(** ** [geomstats/learning/geometric_median.py] *)

(** An instance attribute that [__init__] may or may not have bound. *)
Inductive attribute (V : Type) : Type :=
| NoAttribute
| Attribute (v : V).
Arguments NoAttribute {V}.
Arguments Attribute {V} v.

(** [for x in xs: s = body(x, s)]. *)
Fixpoint for_each {P A S : Type} (xs : list A) (body : A → S → M P S) (s : S)
    : M P S :=
  match xs with
  | [] => ret s
  | x :: xs' => do s' <- body x s; for_each xs' body s'
  end.

(** [range(lo, hi)]. *)
Definition range (lo hi : Z) : list Z :=
  map (λ k, lo + Z.of_nat k) (seq 0 (Z.to_nat (hi - lo))).

Module WeiszfeldAlgorithm.

(** What the algorithm asks of [self.metric], a pair of points at a time;
    [T] is the type of tangent vectors.  The batched calls of the source,
    [dist(current_median, X)] and [log(X, current_median)], map over the
    samples. *)
Record Metric (P T : Type) : Type := {
  dist : P → P → Q;
  log : P → P → T;
  exp : T → P → P
}.
Arguments dist {P T} _ _ _.
Arguments log {P T} _ _ _.
Arguments exp {P T} _ _ _.

(** The array operations of the weighted-tangent step:
    [gs_divide w d] is [gs.divide(w, d)],
    [weighted_sum mul logs] is [gs.sum(mul[:, None, None] * logs, axis=0)],
    [tangent_div v s] is [v / s] and [tangent_scale lr v] is [lr * v]. *)
Record Backend (T : Type) : Type := {
  gs_divide : list Q → list Q → list Q;
  weighted_sum : list Q → list T → T;
  tangent_div : T → Q → T;
  tangent_scale : Q → T → T
}.
Arguments gs_divide {T} _ _ _.
Arguments weighted_sum {T} _ _ _.
Arguments tangent_div {T} _ _ _.
Arguments tangent_scale {T} _ _ _.

(** [verbose] is read by [fit]; [__init__] never binds it. *)
Record t (P T : Type) : Type := {
  metric : Metric P T;
  gs : Backend T;
  max_iter : Z;
  lr : Q;
  init : option P;
  print_every : option Z;
  estimate_ : option P;
  verbose : attribute (option Z)
}.
Arguments metric {P T} _.
Arguments gs {P T} _.
Arguments max_iter {P T} _.
Arguments lr {P T} _.
Arguments init {P T} _.
Arguments print_every {P T} _.
Arguments estimate_ {P T} _.
Arguments verbose {P T} _.

Definition __init__ {P T} (metric : Metric P T) (gs : Backend T)
    (max_iter : Z) (lr : Q) (init : option P) (print_every : option Z) : t P T :=
  {| metric := metric; gs := gs; max_iter := max_iter; lr := lr; init := init;
     print_every := print_every; estimate_ := None; verbose := NoAttribute |}.

Definition single_iteration {P T} (self : t P T) (current_median : P)
    (X : list P) (weights : list Q) (lr : Q) : M P P :=
  let dists := map (dist (metric self) current_median) X in
  let sum := gs_sum dists in
  if Qeq_bool sum 0 then ret current_median
  else
    let logs := map (λ x, log (metric self) x current_median) X in
    emit (Divided weights dists) ;;
    let mul := gs_divide (gs self) weights dists in
    let v_k := tangent_div (gs self) (weighted_sum (gs self) mul logs)
                 (gs_sum mul) in
    let updated_median :=
      exp (metric self) (tangent_scale (gs self) lr v_k) current_median in
    ret updated_median.

(** [self.verbose]. *)
Definition get_verbose {P T} (self : t P T) : M P (option Z) :=
  match verbose self with
  | NoAttribute => raise (AttributeError "verbose")
  | Attribute v => ret v
  end.

(** [(iter + 1) % self.print_every == 0]. *)
Definition print_due {P T} (self : t P T) (iter : Z) : M P bool :=
  match print_every self with
  | None => raise TypeError
  | Some 0 => raise ZeroDivisionError
  | Some k => ret ((iter + 1) mod k =? 0)
  end.

Definition initial_median {P T} (self : t P T) (X : list P) : M P P :=
  match init self with
  | None => match X !! 0%nat with
            | Some x => ret x
            | None => raise IndexError
            end
  | Some p => ret p
  end.

(** [gs.ones((n_points,)) / n_points]. *)
Definition equal_weights (n_points : nat) : list Q :=
  replicate n_points (1 / inject_Z (Z.of_nat n_points))%Q.

Definition fit_body {P T} (self : t P T) (X : list P) (weights : list Q)
    (iter : Z) (current_median : P) : M P P :=
  do current_median' <-
    single_iteration self current_median X weights (lr self);
  do v <- get_verbose self;
  match v with
  | None => ret current_median'
  | Some _ =>
      do due <- print_due self iter;
      if due : bool then emit (Printed iter current_median') ;; ret current_median'
      else ret current_median'
  end.

Definition run_loop {P T} (self : t P T) (X : list P) (weights : option (list Q))
    : M P P :=
  let n_points := length X in
  do current_median <- initial_median self X;
  let weights :=
    match weights with
    | None => equal_weights n_points
    | Some w => w
    end in
  for_each (range 1 (max_iter self + 1)) (fit_body self X weights) current_median.

Definition fit {P T} (self : t P T) (X : list P) (weights : option (list Q))
    : M P (t P T) :=
  do current_median <- run_loop self X weights;
  ret {| metric := metric self; gs := gs self; max_iter := max_iter self;
         lr := lr self; init := init self; print_every := print_every self;
         estimate_ := Some current_median; verbose := verbose self |}.

End WeiszfeldAlgorithm.

(** ** Scalars and one-dimensional arrays *)

(** The element types an array may have. [s_eqb] is the [==] of the type. *)
Class Scalar (A : Type) : Type := {
  s_zero : A;
  s_one : A;
  s_add : A → A → A;
  s_sub : A → A → A;
  s_mul : A → A → A;
  s_eqb : A → A → bool
}.

(** [int64]: the integer is kept in [-2^63, 2^63) by wrapping around. *)
Definition wrap64 (z : Z) : Z := (z + 2 ^ 63) mod 2 ^ 64 - 2 ^ 63.

Definition in_int64 (z : Z) : Prop := - 2 ^ 63 <= z < 2 ^ 63.

Definition int64_scalar : Scalar Z :=
  {| s_zero := 0; s_one := 1;
     s_add := λ a b, wrap64 (a + b);
     s_sub := λ a b, wrap64 (a - b);
     s_mul := λ a b, wrap64 (a * b);
     s_eqb := Z.eqb |}.

(** Integers without a bound. *)
Definition Z_scalar : Scalar Z :=
  {| s_zero := 0; s_one := 1; s_add := Z.add; s_sub := Z.sub;
     s_mul := Z.mul; s_eqb := Z.eqb |}.

(** Exact rationals, in lowest terms. *)
Definition Qc_scalar : Scalar Qc :=
  {| s_zero := Q2Qc 0; s_one := Q2Qc 1; s_add := Qcplus; s_sub := Qcminus;
     s_mul := Qcmult; s_eqb := λ a b, if Qc_eq_dec a b then true else false |}.

(** [float64]: IEEE 754 binary64, rounding to nearest. *)
Definition float64_scalar : Scalar float :=
  {| s_zero := 0%float; s_one := 1%float;
     s_add := PrimFloat.add; s_sub := PrimFloat.sub;
     s_mul := PrimFloat.mul; s_eqb := PrimFloat.eqb |}.

(** [a op b] on one-dimensional arrays, with the broadcasting of the array
    library: equal lengths go element by element, a length-one operand is
    stretched, any other pair of lengths is a [ValueError]. *)
Definition elementwise {A} (f : A → A → A) (a b : list A) : outcome (list A) :=
  if decide (length a = length b) then Returns (zip_with f a b)
  else
    match a, b with
    | [x], _ => Returns (map (f x) b)
    | _, [y] => Returns (map (λ x, f x y) a)
    | _, _ => Raises (ValueError "operands could not be broadcast together")
    end.

(** [gs.all(a == b)] on one-dimensional arrays of one length. *)
Fixpoint array_eqb {A} `{Scalar A} (a b : list A) : bool :=
  match a, b with
  | [], [] => true
  | x :: a', y :: b' => s_eqb x y && array_eqb a' b'
  | _, _ => false
  end.

(** The arithmetic [exp] and [log] ask of the array type. *)
Class ArrayArith (arr : Type) : Type := {
  arr_add : arr → arr → outcome arr;
  arr_sub : arr → arr → outcome arr
}.

Definition vector_arith {A} (SA : Scalar A) : ArrayArith (list A) :=
  {| arr_add := elementwise s_add; arr_sub := elementwise s_sub |}.

(** What [geodesic] asks besides: [check_is_batch] of
    [geomstats.vectorization], [gs.expand_dims], [gs.einsum], and
    [as_times v t] for [gs.to_ndarray(gs.cast(gs.array(t), v.dtype), to_ndim=1)]. *)
Class ArrayShape (arr : Type) : Type := {
  check_is_batch : nat → arr → arr → bool;
  expand_dims : arr → Z → arr;
  einsum : string → arr → arr → outcome arr;
  as_times : arr → arr → arr
}.

(** ** [geomstats/geometry/flat_riemannian_metric.py] *)

Module FlatRiemannianMetric.

Record Space : Type := {
  dim : nat;
  point_ndim : nat;
  shape : list nat
}.

Record t : Type := { _space : Space }.

Definition exp {arr} `{ArrayArith arr} (self : t) (tangent_vec base_point : arr)
    : outcome arr :=
  arr_add base_point tangent_vec.

Definition log {arr} `{ArrayArith arr} (self : t) (point base_point : arr)
    : outcome arr :=
  arr_sub point base_point.

(** The closure [path] that [geodesic] returns: the variables it captured. *)
Record path (arr : Type) : Type := {
  path_initial_point : arr;
  path_initial_tangent_vec : arr;
  path_ijk : string
}.
Arguments path_initial_point {arr} _.
Arguments path_initial_tangent_vec {arr} _.
Arguments path_ijk {arr} _.

(** [path(t)]. *)
Definition call_path {arr} `{ArrayArith arr} `{ArrayShape arr}
    (p : path arr) (t : arr) : outcome arr :=
  let t := as_times (path_initial_tangent_vec p) t in
  match einsum ("n,..." ++ path_ijk p ++ "->...n" ++ path_ijk p) t
          (path_initial_tangent_vec p) with
  | Returns tangent_vecs => arr_add (path_initial_point p) tangent_vecs
  | Raises e => Raises e
  | Diverges => Diverges
  end.

(** The part of [geodesic] after the arguments are settled. *)
Definition make_path {arr} `{ArrayShape arr} (self : t)
    (initial_point initial_tangent_vec : arr) : path arr :=
  let is_batch :=
    check_is_batch (point_ndim (_space self)) initial_point initial_tangent_vec in
  let initial_point :=
    if is_batch
    then expand_dims initial_point (- (Z.of_nat (point_ndim (_space self)) + 1))
    else initial_point in
  let ijk := substring 0 (point_ndim (_space self)) "ijk" in
  {| path_initial_point := initial_point;
     path_initial_tangent_vec := initial_tangent_vec;
     path_ijk := ijk |}.

Definition geodesic {arr} `{ArrayArith arr} `{ArrayShape arr} (self : t)
    (initial_point : arr) (end_point initial_tangent_vec : option arr)
    : outcome (path arr) :=
  match end_point, initial_tangent_vec with
  | None, None =>
      Raises (ValueError
        "Specify an end point or an initial tangent vector to define the geodesic.")
  | Some end_point, Some _ =>
      Raises (ValueError
        "Cannot specify both an end point and an initial tangent vector.")
  | Some end_point, None =>
      match log self end_point initial_point with
      | Returns initial_tangent_vec =>
          Returns (make_path self initial_point initial_tangent_vec)
      | Raises e => Raises e
      | Diverges => Diverges
      end
  | None, Some initial_tangent_vec =>
      Returns (make_path self initial_point initial_tangent_vec)
  end.

End FlatRiemannianMetric.

(** ** Matrices *)

(** A matrix is the list of its rows. *)
Abbreviation matrix A := (list (list A)) (only parsing).

(** [m] has [r] rows of [c] entries each. *)
Definition has_shape {A} (r c : nat) (m : matrix A) : Prop :=
  length m = r ∧ Forall (λ row, length row = c) m.

Definition has_shapeb {A} (r c : nat) (m : matrix A) : bool :=
  (length m =? r)%nat && forallb (λ row, (length row =? c)%nat) m.

Definition ncols {A} (m : matrix A) : nat :=
  match m with
  | [] => O
  | row :: _ => length row
  end.

Definition zeros {A} `{Scalar A} (r c : nat) : matrix A :=
  replicate r (replicate c s_zero).

(** Modelled from the spec: the array backend is not part of the sources.
    [array_from_sparse data indices (n, n)] is the "sparse-scatter
    construction from index triplets" of the Batched Array Contract: a zero
    matrix of the target shape in which entry [(i, j)] of each index pair
    receives the matching datum; an index outside the target shape is an
    error. *)
Fixpoint scatter {A} (entries : list ((nat * nat) * A)) (out : matrix A)
    : outcome (matrix A) :=
  match entries with
  | [] => Returns out
  | ((i, j), d) :: rest =>
      match out !! i with
      | Some row =>
          if decide (j < length row)%nat
          then scatter rest (<[i := <[j := d]> row]> out)
          else Raises (ValueError "index out of the target shape")
      | None => Raises (ValueError "index out of the target shape")
      end
  end.

Definition array_from_sparse {A} `{Scalar A} (data : list A)
    (indices : list (nat * nat)) (target_shape : nat * nat)
    : outcome (matrix A) :=
  scatter (zip indices data) (zeros (fst target_shape) (snd target_shape)).

(** Modelled from the spec: [Matrices.transpose], [gs.matmul] and
    [Matrices.mul] of the matrix helpers, which are not part of the sources:
    the transpose, the matrix product (a [ValueError] when the inner
    dimensions disagree) and the product of three factors from the left. *)
Definition transpose {A} `{Scalar A} (m : matrix A) : matrix A :=
  map (λ j, map (λ row, nth j row s_zero) m) (seq 0 (ncols m)).

Definition dot {A} `{Scalar A} (u v : list A) : A :=
  foldr s_add s_zero (zip_with s_mul u v).

Definition matmul {A} `{Scalar A} (a b : matrix A) : outcome (matrix A) :=
  if has_shapeb (length a) (length b) a && has_shapeb (length b) (ncols b) b
  then Returns (map (λ row, map (λ col, dot row col) (transpose b)) a)
  else Raises (ValueError "matmul: mismatch in the core dimensions").

Definition Matrices_mul {A} `{Scalar A} (a b c : matrix A) : outcome (matrix A) :=
  match matmul a b with
  | Returns ab => matmul ab c
  | Raises e => Raises e
  | Diverges => Diverges
  end.

(** ** [geomstats/geometry/group_action.py] *)

(** [enumerate(l)]. *)
Definition enumerate {A} (l : list A) : list (nat * A) :=
  zip (seq 0 (length l)) l.

(** A group element of the permutation actions: one permutation vector
    ([ndim == 1]) or a batch of them. *)
Inductive group_elem : Type :=
| Vector (g : list nat)
| Stack (gs : list (list nat)).

Module CongruenceAction.

Definition __call__ {A} `{Scalar A} (group_elem point : matrix A)
    : outcome (matrix A) :=
  Matrices_mul group_elem point (transpose group_elem).

End CongruenceAction.

Module _PermutationActionMixins.

(** The body of the loop: [inverse_group_elem[index] = val]. *)
Fixpoint assign_all (pairs : list (nat * nat)) (inverse_group_elem : list nat)
    : outcome (list nat) :=
  match pairs with
  | [] => Returns inverse_group_elem
  | (val, index) :: rest =>
      if decide (index < length inverse_group_elem)%nat
      then assign_all rest (<[index := val]> inverse_group_elem)
      else Raises IndexError
  end.

Definition _inverse_element_single (group_elem : list nat) : outcome (list nat) :=
  let inverse_group_elem := replicate (length group_elem) O in
  assign_all (enumerate group_elem) inverse_group_elem.

(** [gs.stack([f(x) for x in xs])]: the first exception ends the
    comprehension. *)
Fixpoint stack_map {A B} (f : A → outcome B) (xs : list A) : outcome (list B) :=
  match xs with
  | [] => Returns []
  | x :: xs' =>
      match f x with
      | Returns y =>
          match stack_map f xs' with
          | Returns ys => Returns (y :: ys)
          | Raises e => Raises e
          | Diverges => Diverges
          end
      | Raises e => Raises e
      | Diverges => Diverges
      end
  end.

Definition inverse_element (g : group_elem) : outcome group_elem :=
  match g with
  | Vector g =>
      match _inverse_element_single g with
      | Returns h => Returns (Vector h)
      | Raises e => Raises e
      | Diverges => Diverges
      end
  | Stack gs =>
      match stack_map _inverse_element_single gs with
      | Returns hs => Returns (Stack hs)
      | Raises e => Raises e
      | Diverges => Diverges
      end
  end.

End _PermutationActionMixins.

(** [permutation_matrix_from_vector] for one permutation vector (an empty
    [batch_shape]): the indices are [zip(range(n), group_elem)] and the data
    [n] ones of the dtype of the point. *)
Definition permutation_matrix_from_vector {A} `{Scalar A} (group_elem : list nat)
    : outcome (matrix A) :=
  let n := length group_elem in
  let indices := zip (seq 0 n) group_elem in
  array_from_sparse (replicate n s_one) indices (n, n).

Module PermutationAction.

Definition inverse_element := _PermutationActionMixins.inverse_element.

Definition __call__ {A} `{Scalar A} (group_elem : list nat) (point : matrix A)
    : outcome (matrix A) :=
  match permutation_matrix_from_vector group_elem with
  | Returns perm_mat => CongruenceAction.__call__ perm_mat point
  | Raises e => Raises e
  | Diverges => Diverges
  end.

End PermutationAction.

Module RowPermutationAction.

Definition inverse_element := _PermutationActionMixins.inverse_element.

Definition __call__ {A} `{Scalar A} (group_elem : list nat) (point : matrix A)
    : outcome (matrix A) :=
  match permutation_matrix_from_vector group_elem with
  | Returns perm_mat => matmul (transpose perm_mat) point
  | Raises e => Raises e
  | Diverges => Diverges
  end.

End RowPermutationAction.

(** * Properties *)

(** ** Comparisons and loops *)

Lemma Qgtb_true (a b : Q) : Qgtb a b = true ↔ (b < a)%Q.
Proof.
  unfold Qgtb. rewrite negb_true_iff.
  destruct (Qle_bool a b) eqn:E.
  - apply Qle_bool_iff in E. split; [discriminate | intros H; lra].
  - split; [intros _ | reflexivity].
    apply Qnot_le_lt. intros H. apply Qle_bool_iff in H. congruence.
Qed.

Lemma Qgtb_false (a b : Q) : Qgtb a b = false ↔ (a <= b)%Q.
Proof. unfold Qgtb. rewrite negb_false_iff. apply Qle_bool_iff. Qed.

Section WhileLoop.
Context {St : Type} (cond : St → bool) (body : St → St).

Lemma iterate_succ (n : nat) (s : St) :
  iterate body (S n) s = body (iterate body n s).
Proof.
  revert s. induction n as [|n IH]; intros s; [reflexivity|].
  change (iterate body (S (S n)) s) with (iterate body (S n) (body s)).
  rewrite IH. reflexivity.
Qed.

(** A loop whose body lowers a measure leaves within that many rounds, at the
    first state in which the condition is false. *)
Lemma while_loop_iterate (measure : St → nat) :
  (∀ s, cond s = true → (measure (body s) < measure s)%nat) →
  ∀ fuel s, (measure s ≤ fuel)%nat →
  ∃ n, while_loop cond body fuel s = Some (iterate body n s)
       ∧ cond (iterate body n s) = false
       ∧ ∀ k, (k < n)%nat → cond (iterate body k s) = true.
Proof.
  intros Hdec. induction fuel as [|fuel IH]; intros s Hm; simpl;
    destruct (cond s) eqn:E.
  - specialize (Hdec s E). lia.
  - exists O. simpl. repeat split; [assumption | intros k Hk; lia].
  - destruct (IH (body s)) as (n & Hrun & Hexit & Hbefore).
    { specialize (Hdec s E). lia. }
    exists (S n). simpl. repeat split; [assumption .. |].
    intros [|k] Hk; simpl; [assumption | apply Hbefore; lia].
  - exists O. simpl. repeat split; [assumption | intros k Hk; lia].
Qed.

End WhileLoop.

(** [n] is the first round at which the loop test of the AAC estimators
    fails: there [signal ≤ eps] or the count has reached [max_iter], and at
    every earlier round [signal > eps] and the count was below [max_iter]. *)
Definition stops_at {St : Type} (signal : St → Q) (eps : Q) (max_iter : Z)
    (trace : nat → St) (n : nat) : Prop :=
  ((signal (trace n) <= eps)%Q ∨ max_iter <= Z.of_nat n)
  ∧ ∀ k, (k < n)%nat → (eps < signal (trace k))%Q ∧ Z.of_nat k < max_iter.

Section AACLoop.
Context {St : Type} (error : St → Q) (iteration : St → Z).
Context (eps : Q) (max_iter : Z) (body : St → St).
Hypothesis body_iteration : ∀ s, iteration (body s) = iteration s + 1.

Lemma iteration_iterate (n : nat) (s : St) :
  iteration (iterate body n s) = iteration s + Z.of_nat n.
Proof.
  revert s. induction n as [|n IH]; intros s; simpl; [lia|].
  rewrite IH, body_iteration. lia.
Qed.

Lemma aac_loop_exit (s0 : St) :
  iteration s0 = 0 →
  ∃ n, while_loop (λ s, Qgtb (error s) eps && (iteration s <? max_iter)) body
         (Z.to_nat max_iter) s0 = Some (iterate body n s0)
       ∧ iteration (iterate body n s0) = Z.of_nat n
       ∧ stops_at error eps max_iter (λ k, iterate body k s0) n.
Proof.
  intros H0.
  destruct (while_loop_iterate
              (λ s, Qgtb (error s) eps && (iteration s <? max_iter)) body
              (λ s, Z.to_nat (max_iter - iteration s)))
    with (fuel := Z.to_nat max_iter) (s := s0)
    as (n & Hrun & Hexit & Hbefore).
  - intros s Hc. apply andb_true_iff in Hc as [_ Hlt].
    apply Z.ltb_lt in Hlt. rewrite body_iteration. lia.
  - rewrite H0. lia.
  - assert (Hn : iteration (iterate body n s0) = Z.of_nat n)
      by (rewrite iteration_iterate; lia).
    exists n. split; [exact Hrun|]. split; [exact Hn|]. split.
    + apply andb_false_iff in Hexit as [He | Hi].
      * left. apply Qgtb_false. exact He.
      * right. apply Z.ltb_ge in Hi. lia.
    + intros k Hk. specialize (Hbefore k Hk).
      apply andb_true_iff in Hbefore as [He Hi].
      apply Qgtb_true in He. apply Z.ltb_lt in Hi.
      rewrite iteration_iterate in Hi. split; [exact He | lia].
Qed.

End AACLoop.

(** ** The loops of the AAC estimators *)

Lemma frechet_run_loop {P} (self : AACFrechet.t P) (prev : P) (X : list P) :
  ∃ n, AACFrechet.run_loop self prev X
         = ret (iterate (AACFrechet.loop_body self) n
                  (AACFrechet.loop_entry self prev X))
       ∧ AACFrechet.iteration
           (iterate (AACFrechet.loop_body self) n
              (AACFrechet.loop_entry self prev X)) = Z.of_nat n
       ∧ stops_at AACFrechet.error (AACFrechet.epsilon self)
           (AACFrechet.max_iter self)
           (λ k, iterate (AACFrechet.loop_body self) k
                   (AACFrechet.loop_entry self prev X)) n.
Proof.
  destruct (aac_loop_exit AACFrechet.error AACFrechet.iteration
              (AACFrechet.epsilon self) (AACFrechet.max_iter self)
              (AACFrechet.loop_body self) (λ s, eq_refl)
              (AACFrechet.loop_entry self prev X) eq_refl)
    as (n & Hrun & Hn & Hstop).
  exists n. split; [|split; assumption].
  unfold AACFrechet.run_loop, AACFrechet.loop_cond. rewrite Hrun. reflexivity.
Qed.

Lemma gpc_run_loop {P G S} (self : AACGPC.t P G S) (x : P) (X : list P) :
  ∃ n, AACGPC.run_loop self x X
         = ret (iterate (AACGPC.loop_body self) n (AACGPC.loop_entry self x X))
       ∧ AACGPC.iteration
           (iterate (AACGPC.loop_body self) n (AACGPC.loop_entry self x X))
         = Z.of_nat n
       ∧ stops_at AACGPC.error (AACGPC.epsilon self) (AACGPC.max_iter self)
           (λ k, iterate (AACGPC.loop_body self) k (AACGPC.loop_entry self x X))
           n.
Proof.
  destruct (aac_loop_exit AACGPC.error AACGPC.iteration
              (AACGPC.epsilon self) (AACGPC.max_iter self)
              (AACGPC.loop_body self) (λ s, eq_refl)
              (AACGPC.loop_entry self x X) eq_refl)
    as (n & Hrun & Hn & Hstop).
  exists n. split; [|split; assumption].
  unfold AACGPC.run_loop, AACGPC.loop_cond. rewrite Hrun. reflexivity.
Qed.

Lemma regression_run_loop {F P R} (self : AACRegression.t F P R) (X : F)
    (y_ : P) (y : list P) :
  ∃ n, AACRegression.run_loop self X y_ y
         = ret (iterate (AACRegression.loop_body self X) n
                  (AACRegression.loop_entry self X y_ y))
       ∧ AACRegression.iteration
           (iterate (AACRegression.loop_body self X) n
              (AACRegression.loop_entry self X y_ y)) = Z.of_nat n
       ∧ stops_at AACRegression.error (AACRegression.epsilon self)
           (AACRegression.max_iter self)
           (λ k, iterate (AACRegression.loop_body self X) k
                   (AACRegression.loop_entry self X y_ y)) n.
Proof.
  destruct (aac_loop_exit AACRegression.error AACRegression.iteration
              (AACRegression.epsilon self) (AACRegression.max_iter self)
              (AACRegression.loop_body self X) (λ s, eq_refl)
              (AACRegression.loop_entry self X y_ y) eq_refl)
    as (n & Hrun & Hn & Hstop).
  exists n. split; [|split; assumption].
  unfold AACRegression.run_loop, AACRegression.loop_cond. rewrite Hrun.
  reflexivity.
Qed.


(** A solver on one-number samples whose leading ratio is the first sample,
    under an alignment to the geodesic that lowers every sample by a half. *)
Definition falling_metric : AACGPC.Metric Q unit :=
  {| AACGPC.align_point_to_point := λ _ X, X;
     AACGPC.align_point_to_geodesic := λ _ X, map (λ v : Q, (v - (1 # 2))%Q) X;
     AACGPC.total_space_metric_geodesic := λ _ _, tt |}.

Definition first_sample_pca : AACGPC.WrappedPCA Q (list Q) :=
  {| AACGPC.pca_fit := λ X, X;
     AACGPC.explained_variance_ratio_0 := λ s, hd 0%Q s;
     AACGPC.reshaped_mean_ := λ s, hd 0%Q s;
     AACGPC.reshaped_components_0 := λ s, hd 0%Q s |}.

Definition falling_gpc : AACGPC.t Q unit (list Q) :=
  AACGPC.__init__ falling_metric first_sample_pca (1 # 1000000)%Q 5
    (Some (9 # 10)%Q).


(** ** The monad *)

Lemma bind_ret_l {P A B} (a : A) (k : A → M P B) : bind (ret a) k = k a.
Proof. unfold bind, ret. destruct (k a). reflexivity. Qed.

Lemma random_choice_nonempty {P A} (r : nat) (seq : list A) :
  seq ≠ [] →
  ∃ x, seq !! (r mod length seq)%nat = Some x
       ∧ random_choice (P := P) r seq = ret x.
Proof.
  intros Hne. unfold random_choice.
  assert (Hlen : (length seq ≠ 0)%nat) by (destruct seq; simpl; congruence).
  destruct (lookup_lt_is_Some_2 seq (r mod length seq)%nat) as [x Hx].
  { apply Nat.mod_upper_bound. exact Hlen. }
  exists x. rewrite Hx. split; reflexivity.
Qed.

Lemma warn_log {P} (iteration max_iter : Z) :
  _warn_max_iterations (P := P) iteration max_iter
  = ((if iteration =? max_iter then [LogWarning max_iter] else []), Returns tt).
Proof. unfold _warn_max_iterations. destruct (_ =? _); reflexivity. Qed.

(** ** [fit] of the AAC estimators, in terms of the state at the exit of
    the loop *)

Definition warning_log {P} (iteration max_iter : Z) : list (event P) :=
  if iteration =? max_iter then [LogWarning max_iter] else [].

Lemma in_warning_log {P} (iteration max_iter : Z) :
  In (LogWarning max_iter) (warning_log (P := P) iteration max_iter)
  ↔ iteration = max_iter.
Proof.
  unfold warning_log. destruct (Z.eqb_spec iteration max_iter) as [E | E].
  - split; [intros _; exact E | intros _; left; reflexivity].
  - split; [intros [] | intros H; contradiction].
Qed.

Lemma frechet_finish {P} (self : AACFrechet.t P) (st : AACFrechet.locals P) :
  AACFrechet.finish self st
  = (warning_log (AACFrechet.iteration st) (AACFrechet.max_iter self),
     match AACFrechet.new_estimate st with
     | None => Raises (UnboundLocalError "new_estimate")
     | Some e =>
         Returns
           {| AACFrechet.metric := AACFrechet.metric self;
              AACFrechet.epsilon := AACFrechet.epsilon self;
              AACFrechet.max_iter := AACFrechet.max_iter self;
              AACFrechet.init_point := AACFrechet.init_point self;
              AACFrechet.mean_estimator := AACFrechet.mean_estimator self;
              AACFrechet.estimate_ := Some e;
              AACFrechet.n_iter_ := Some (AACFrechet.iteration st) |}
     end).
Proof.
  unfold AACFrechet.finish, warning_log. rewrite warn_log. unfold bind.
  destruct (AACFrechet.new_estimate st); simpl; rewrite app_nil_r; reflexivity.
Qed.

Lemma frechet_fit {P} (self : AACFrechet.t P) (r : nat) (X : list P) :
  X ≠ [] →
  ∃ prev st,
    AACFrechet.initial_reference self r X = ret prev
    ∧ AACFrechet.run_loop self prev X = ret st
    ∧ AACFrechet.fit self r X = AACFrechet.finish self st.
Proof.
  intros Hne.
  assert (Hinit : ∃ prev, AACFrechet.initial_reference self r X = ret prev).
  { unfold AACFrechet.initial_reference.
    destruct (AACFrechet.init_point self) as [p|]; [eauto|].
    destruct (random_choice_nonempty (P := P) r X Hne) as (x & _ & Hx). eauto. }
  destruct Hinit as [prev Hprev].
  destruct (frechet_run_loop self prev X) as (n & Hrun & _).
  exists prev, (iterate (AACFrechet.loop_body self) n
                  (AACFrechet.loop_entry self prev X)).
  split; [exact Hprev|]. split; [exact Hrun|].
  unfold AACFrechet.fit. rewrite Hprev, bind_ret_l, Hrun, bind_ret_l.
  reflexivity.
Qed.

Lemma gpc_finish {P G S} (self : AACGPC.t P G S) (st : AACGPC.locals P S) :
  AACGPC.finish self st
  = (warning_log (AACGPC.iteration st) (AACGPC.max_iter self),
     Returns
       {| AACGPC.metric := AACGPC.metric self;
          AACGPC.epsilon := AACGPC.epsilon self;
          AACGPC.max_iter := AACGPC.max_iter self;
          AACGPC.init_point := AACGPC.init_point self;
          AACGPC.pca_solver := AACGPC.pca_solver self;
          AACGPC.fitted := Some (AACGPC.solver st) |}).
Proof.
  unfold AACGPC.finish, warning_log. rewrite warn_log. unfold bind, ret.
  rewrite app_nil_r. reflexivity.
Qed.

Lemma gpc_fit {P G S} (self : AACGPC.t P G S) (r : nat) (X : list P) :
  X ≠ [] →
  ∃ x st,
    AACGPC.initial_reference self r X = ret x
    ∧ AACGPC.run_loop self x X = ret st
    ∧ AACGPC.fit self r X = AACGPC.finish self st.
Proof.
  intros Hne.
  assert (Hinit : ∃ x, AACGPC.initial_reference self r X = ret x).
  { unfold AACGPC.initial_reference.
    destruct (AACGPC.init_point self) as [p|]; [eauto|].
    destruct (random_choice_nonempty (P := P) r X Hne) as (x & _ & Hx). eauto. }
  destruct Hinit as [x Hx].
  destruct (gpc_run_loop self x X) as (n & Hrun & _).
  exists x, (iterate (AACGPC.loop_body self) n (AACGPC.loop_entry self x X)).
  split; [exact Hx|]. split; [exact Hrun|].
  unfold AACGPC.fit. rewrite Hx, bind_ret_l, Hrun, bind_ret_l. reflexivity.
Qed.

Lemma regression_finish {F P R} (self : AACRegression.t F P R)
    (st : AACRegression.locals P R) :
  AACRegression.finish self st
  = (warning_log (AACRegression.iteration st) (AACRegression.max_iter self),
     Returns
       {| AACRegression.metric := AACRegression.metric self;
          AACRegression.epsilon := AACRegression.epsilon self;
          AACRegression.max_iter := AACRegression.max_iter self;
          AACRegression.init_point := AACRegression.init_point self;
          AACRegression.regressor := AACRegression.regressor self;
          AACRegression.fitted := Some (AACRegression.model st) |}).
Proof.
  unfold AACRegression.finish, warning_log. rewrite warn_log.
  unfold bind, ret. rewrite app_nil_r. reflexivity.
Qed.

Lemma regression_fit {F P R} (self : AACRegression.t F P R) (r : nat) (X : F)
    (y : list P) :
  y ≠ [] →
  ∃ y_ st,
    AACRegression.initial_reference self r y = ret y_
    ∧ AACRegression.run_loop self X y_ y = ret st
    ∧ AACRegression.fit self r X y = AACRegression.finish self st.
Proof.
  intros Hne.
  assert (Hinit : ∃ y_, AACRegression.initial_reference self r y = ret y_).
  { unfold AACRegression.initial_reference.
    destruct (AACRegression.init_point self) as [p|]; [eauto|].
    destruct (random_choice_nonempty (P := P) r y Hne) as (x & _ & Hx). eauto. }
  destruct Hinit as [y_ Hy].
  destruct (regression_run_loop self X y_ y) as (n & Hrun & _).
  exists y_, (iterate (AACRegression.loop_body self X) n
                (AACRegression.loop_entry self X y_ y)).
  split; [exact Hy|]. split; [exact Hrun|].
  unfold AACRegression.fit. rewrite Hy, bind_ret_l, Hrun, bind_ret_l.
  reflexivity.
Qed.

(** C10: in the fit of each AAC estimator the warning is logged exactly when
    the count at the exit of the loop equals [max_iter], whatever the last
    progress signal is. *)
Theorem warning_iff_count_is_max_iter :
  (∀ P (self : AACFrechet.t P) r X, X ≠ [] →
     ∃ prev st,
       AACFrechet.initial_reference self r X = ret prev
       ∧ AACFrechet.run_loop self prev X = ret st
       ∧ (In (LogWarning (AACFrechet.max_iter self))
            (log_of (AACFrechet.fit self r X))
          ↔ AACFrechet.iteration st = AACFrechet.max_iter self))
  ∧ (∀ P G S (self : AACGPC.t P G S) r X, X ≠ [] →
     ∃ x st,
       AACGPC.initial_reference self r X = ret x
       ∧ AACGPC.run_loop self x X = ret st
       ∧ (In (LogWarning (AACGPC.max_iter self)) (log_of (AACGPC.fit self r X))
          ↔ AACGPC.iteration st = AACGPC.max_iter self))
  ∧ (∀ F P R (self : AACRegression.t F P R) r X y, y ≠ [] →
     ∃ y_ st,
       AACRegression.initial_reference self r y = ret y_
       ∧ AACRegression.run_loop self X y_ y = ret st
       ∧ (In (LogWarning (AACRegression.max_iter self))
            (log_of (AACRegression.fit self r X y))
          ↔ AACRegression.iteration st = AACRegression.max_iter self)).
Proof.
  split; [|split].
  - intros P self r X Hne.
    destruct (frechet_fit self r X Hne) as (prev & st & Hi & Hrun & Hfit).
    exists prev, st. split; [exact Hi|]. split; [exact Hrun|].
    rewrite Hfit, frechet_finish. apply in_warning_log.
  - intros P G S self r X Hne.
    destruct (gpc_fit self r X Hne) as (x & st & Hi & Hrun & Hfit).
    exists x, st. split; [exact Hi|]. split; [exact Hrun|].
    rewrite Hfit, gpc_finish. apply in_warning_log.
  - intros F P R self r X y Hne.
    destruct (regression_fit self r X y Hne) as (y_ & st & Hi & Hrun & Hfit).
    exists y_, st. split; [exact Hi|]. split; [exact Hrun|].
    rewrite Hfit, regression_finish. apply in_warning_log.
Qed.

(** ** Reaching [max_iter] *)

(** When the signal stays above [epsilon] for [max_iter] rounds the loop
    leaves after exactly [max_iter] rounds. *)
Lemma stops_at_max_iter {St} (signal : St → Q) (eps : Q) (max_iter : Z)
    (trace : nat → St) (n : nat) :
  0 <= max_iter →
  (∀ k, (k < Z.to_nat max_iter)%nat → (eps < signal (trace k))%Q) →
  stops_at signal eps max_iter trace n →
  n = Z.to_nat max_iter.
Proof.
  intros Hpos Hsig [Hexit Hbefore].
  destruct (Nat.lt_trichotomy n (Z.to_nat max_iter)) as [Hlt | [Heq | Hgt]].
  - specialize (Hsig n Hlt). destruct Hexit as [He | Hc]; [lra | lia].
  - exact Heq.
  - destruct (Hbefore (Z.to_nat max_iter) Hgt) as [_ Hc]. lia.
Qed.

Lemma frechet_new_estimate {P} (self : AACFrechet.t P) (n : nat)
    (s : AACFrechet.locals P) :
  AACFrechet.new_estimate (iterate (AACFrechet.loop_body self) (S n) s)
  = Some (AACFrechet.previous_estimate
            (iterate (AACFrechet.loop_body self) (S n) s)).
Proof. rewrite iterate_succ. reflexivity. Qed.

(** C3, on the code: with [max_iter = 0] the loop body never runs, the
    warning is logged, and the assignment [self.estimate_ = new_estimate]
    reads a local that was never bound. *)
Theorem frechet_fit_max_iter_zero_raises {P} (self : AACFrechet.t P) (r : nat)
    (X : list P) :
  X ≠ [] →
  AACFrechet.max_iter self = 0 →
  AACFrechet.fit self r X
  = ([LogWarning 0], Raises (UnboundLocalError "new_estimate")).
Proof.
  intros Hne Hmax.
  destruct (frechet_fit self r X Hne) as (prev & st & _ & Hrun & Hfit).
  rewrite Hfit, frechet_finish.
  unfold AACFrechet.run_loop, AACFrechet.loop_cond in Hrun.
  rewrite Hmax in Hrun. simpl in Hrun. rewrite andb_false_r in Hrun.
  injection Hrun as <-. rewrite Hmax. reflexivity.
Qed.

Definition line_metric : AACFrechet.Metric Q :=
  {| AACFrechet.align_point_to_point := λ _ X, X;
     AACFrechet.total_space_metric_dist := λ a b, Qabs (a - b) |}.

(** The mean of the first and the last sample. *)
Definition midrange (X : list Q) : Q := ((hd 0 X + List.last X 0) / 2)%Q.

Lemma frechet_fit_max_iter_zero_raises_witness :
  AACFrechet.fit
    (AACFrechet.__init__ line_metric (1 # 1000000)%Q 0 None midrange)
    0%nat [1%Q; 3%Q]
  = ([LogWarning 0], Raises (UnboundLocalError "new_estimate")).
Proof.
  apply (frechet_fit_max_iter_zero_raises
           (AACFrechet.__init__ line_metric (1 # 1000000)%Q 0 None midrange)
           0%nat [1%Q; 3%Q]).
  - discriminate.
  - reflexivity.
Defined.

(** A fit on the line that settles exactly in its last round, [max_iter = 2]:
    the first round moves the mean from 0 to 2, the second leaves it there. *)
Definition settled_frechet : AACFrechet.t Q :=
  AACFrechet.__init__ line_metric (1 # 1000000)%Q 2 (Some 0%Q) midrange.

Lemma warning_iff_count_is_max_iter_witness :
  ∃ st,
    AACFrechet.run_loop settled_frechet 0%Q [1%Q; 3%Q] = ret st
    ∧ (AACFrechet.error st <= AACFrechet.epsilon settled_frechet)%Q
    ∧ In (LogWarning 2) (log_of (AACFrechet.fit settled_frechet 0%nat [1%Q; 3%Q])).
Proof.
  destruct (proj1 warning_iff_count_is_max_iter Q settled_frechet 0%nat
              [1%Q; 3%Q] ltac:(discriminate))
    as (prev & st & Hi & Hrun & Hiff).
  injection Hi as <-. exists st. split; [exact Hrun|].
  vm_compute in Hrun. injection Hrun as <-.
  split; [vm_compute; discriminate|].
  apply Hiff. reflexivity.
Defined.

(** The sibling estimators return on the same input: with [max_iter = 0]
    [AACGPC.fit] logs the warning and returns. *)
Lemma gpc_fit_max_iter_zero_returns {P G S} (self : AACGPC.t P G S) (r : nat)
    (X : list P) :
  X ≠ [] →
  AACGPC.max_iter self = 0 →
  ∃ self', AACGPC.fit self r X = ([LogWarning 0], Returns self').
Proof.
  intros Hne Hmax.
  destruct (gpc_fit self r X Hne) as (x & st & _ & Hrun & Hfit).
  rewrite Hfit, gpc_finish.
  unfold AACGPC.run_loop, AACGPC.loop_cond in Hrun.
  rewrite Hmax in Hrun. simpl in Hrun. rewrite andb_false_r in Hrun.
  injection Hrun as <-. rewrite Hmax. eexists. reflexivity.
Qed.

(** ** The Weiszfeld algorithm *)

(** C6: when the distances from [current_median] to the samples sum to zero,
    [single_iteration] returns [current_median] itself and leaves no event:
    the weighted-tangent step is not entered and nothing is divided. *)
Theorem single_iteration_zero_distance {P T} (self : WeiszfeldAlgorithm.t P T)
    (current_median : P) (X : list P) (weights : list Q) (lr : Q) :
  (gs_sum (map (WeiszfeldAlgorithm.dist (WeiszfeldAlgorithm.metric self)
                  current_median) X) == 0)%Q →
  WeiszfeldAlgorithm.single_iteration self current_median X weights lr
  = ([], Returns current_median).
Proof.
  intros Hsum. unfold WeiszfeldAlgorithm.single_iteration.
  apply Qeq_bool_iff in Hsum. rewrite Hsum. reflexivity.
Qed.

(** Otherwise the step is taken, and the division by the distances is on
    record. *)
Lemma single_iteration_step {P T} (self : WeiszfeldAlgorithm.t P T)
    (current_median : P) (X : list P) (weights : list Q) (lr : Q) :
  ¬ (gs_sum (map (WeiszfeldAlgorithm.dist (WeiszfeldAlgorithm.metric self)
                    current_median) X) == 0)%Q →
  ∃ updated_median,
    WeiszfeldAlgorithm.single_iteration self current_median X weights lr
    = ([Divided weights
          (map (WeiszfeldAlgorithm.dist (WeiszfeldAlgorithm.metric self)
                  current_median) X)],
       Returns updated_median).
Proof.
  intros Hsum. unfold WeiszfeldAlgorithm.single_iteration.
  destruct (Qeq_bool _ 0) eqn:E.
  - apply Qeq_bool_iff in E. contradiction.
  - eexists. reflexivity.
Qed.

Lemma single_iteration_returns {P T} (self : WeiszfeldAlgorithm.t P T)
    (current_median : P) (X : list P) (weights : list Q) (lr : Q) :
  ∃ l p,
    WeiszfeldAlgorithm.single_iteration self current_median X weights lr
    = (l, Returns p)
    ∧ Forall (λ e, is_warning e = false) l.
Proof.
  unfold WeiszfeldAlgorithm.single_iteration.
  destruct (Qeq_bool _ 0).
  - exists [], current_median. split; [reflexivity | constructor].
  - eexists _, _. split; [reflexivity|].
    repeat constructor.
Qed.

(** The Euclidean line, with the array operations of the step on numbers. *)
Definition line : WeiszfeldAlgorithm.Metric Q Q :=
  {| WeiszfeldAlgorithm.dist := λ a b, Qabs (a - b);
     WeiszfeldAlgorithm.log := λ x c, (x - c)%Q;
     WeiszfeldAlgorithm.exp := λ v c, (c + v)%Q |}.

Definition line_backend : WeiszfeldAlgorithm.Backend Q :=
  {| WeiszfeldAlgorithm.gs_divide := zip_with Qdiv;
     WeiszfeldAlgorithm.weighted_sum := λ mul logs, gs_sum (zip_with Qmult mul logs);
     WeiszfeldAlgorithm.tangent_div := Qdiv;
     WeiszfeldAlgorithm.tangent_scale := Qmult |}.

Lemma single_iteration_zero_distance_witness :
  WeiszfeldAlgorithm.single_iteration
    (WeiszfeldAlgorithm.__init__ line line_backend 100 1 None None)
    (2 # 1)%Q [(2 # 1)%Q; (2 # 1)%Q; (2 # 1)%Q] [1%Q; 5%Q; 0%Q] 1
  = ([], Returns (2 # 1)%Q).
Proof.
  apply (single_iteration_zero_distance
           (WeiszfeldAlgorithm.__init__ line line_backend 100 1 None None)).
  vm_compute. reflexivity.
Defined.

Lemma range_cons (lo hi : Z) :
  lo < hi → range lo hi = lo :: range (lo + 1) hi.
Proof.
  intros Hlt. unfold range.
  replace (Z.to_nat (hi - lo)) with (S (Z.to_nat (hi - (lo + 1)))) by lia.
  simpl. f_equal; [lia|].
  rewrite <- seq_shift, map_map. apply map_ext. intros k. lia.
Qed.

Lemma weiszfeld_initial_median {P T} (self : WeiszfeldAlgorithm.t P T)
    (X : list P) :
  X ≠ [] →
  ∃ p, WeiszfeldAlgorithm.initial_median self X = ret p.
Proof.
  intros Hne. unfold WeiszfeldAlgorithm.initial_median.
  destruct (WeiszfeldAlgorithm.init self); [eauto|].
  destruct X as [|x X]; [congruence|]. simpl. eauto.
Qed.

(** C2, on the code: [__init__] never binds [verbose], so the first round of
    the loop of [fit] ends in an [AttributeError], whatever the samples and
    the weights are. *)
Theorem weiszfeld_fit_raises_attribute_error {P T}
    (metric : WeiszfeldAlgorithm.Metric P T) (gs : WeiszfeldAlgorithm.Backend T)
    (max_iter : Z) (lr : Q) (init : option P) (print_every : option Z)
    (X : list P) (weights : option (list Q)) :
  X ≠ [] →
  1 <= max_iter →
  result_of
    (WeiszfeldAlgorithm.fit
       (WeiszfeldAlgorithm.__init__ metric gs max_iter lr init print_every)
       X weights)
  = Raises (AttributeError "verbose").
Proof.
  intros Hne Hmax.
  set (self := WeiszfeldAlgorithm.__init__ metric gs max_iter lr init
                 print_every).
  unfold WeiszfeldAlgorithm.fit, WeiszfeldAlgorithm.run_loop.
  destruct (weiszfeld_initial_median self X Hne) as [p Hp].
  rewrite Hp, bind_ret_l.
  change (WeiszfeldAlgorithm.max_iter self) with max_iter.
  rewrite range_cons by lia. simpl for_each.
  unfold WeiszfeldAlgorithm.fit_body at 1.
  destruct (single_iteration_returns self p X
              (match weights with
               | Some w => w
               | None => WeiszfeldAlgorithm.equal_weights (length X)
               end) (WeiszfeldAlgorithm.lr self)) as (l & p' & Hs & _).
  rewrite Hs. reflexivity.
Qed.

Lemma weiszfeld_fit_raises_attribute_error_witness :
  result_of
    (WeiszfeldAlgorithm.fit
       (WeiszfeldAlgorithm.__init__ line line_backend 1 1 None None)
       [(2 # 1)%Q; (2 # 1)%Q] None)
  = Raises (AttributeError "verbose").
Proof.
  apply (weiszfeld_fit_raises_attribute_error line line_backend 1 1 None None
           [(2 # 1)%Q; (2 # 1)%Q] None).
  - discriminate.
  - lia.
Defined.

(** With [verbose] bound to [None] the claim of the single-point fit holds:
    the first sample is the median from the first round on. *)
Lemma gs_sum_zeros (l : list Q) :
  Forall (λ d, (d == 0)%Q) l → (gs_sum l == 0)%Q.
Proof.
  induction 1 as [|d l Hd _ IH]; simpl; [reflexivity|].
  rewrite Hd, IH. reflexivity.
Qed.

Lemma weiszfeld_fit_repeated_point {P T} (self : WeiszfeldAlgorithm.t P T)
    (p : P) (n : nat) (weights : option (list Q)) :
  WeiszfeldAlgorithm.verbose self = Attribute None →
  WeiszfeldAlgorithm.init self = None →
  (WeiszfeldAlgorithm.dist (WeiszfeldAlgorithm.metric self) p p == 0)%Q →
  ∃ self',
    WeiszfeldAlgorithm.fit self (replicate (S n) p) weights = ([], Returns self')
    ∧ WeiszfeldAlgorithm.estimate_ self' = Some p.
Proof.
  intros Hv Hi Hd.
  assert (Hround : ∀ w iter,
            WeiszfeldAlgorithm.fit_body self (replicate (S n) p) w iter p
            = ret p).
  { intros w iter.
    assert (Hsum : Qeq_bool
              (gs_sum (map (WeiszfeldAlgorithm.dist
                              (WeiszfeldAlgorithm.metric self) p)
                         (replicate (S n) p))) 0 = true).
    { apply Qeq_bool_iff, gs_sum_zeros, List.Forall_forall. intros d Hin.
      apply in_map_iff in Hin as (x & <- & Hx).
      apply list_elem_of_In, elem_of_replicate in Hx as [-> _]. exact Hd. }
    unfold WeiszfeldAlgorithm.fit_body, WeiszfeldAlgorithm.single_iteration.
    rewrite Hsum, bind_ret_l. unfold WeiszfeldAlgorithm.get_verbose.
    rewrite Hv, bind_ret_l. reflexivity. }
  assert (Hloop : ∀ w iters,
            for_each iters
              (WeiszfeldAlgorithm.fit_body self (replicate (S n) p) w) p
            = ret p).
  { intros w iters. induction iters as [|i iters IH]; [reflexivity|].
    simpl. rewrite Hround, bind_ret_l. exact IH. }
  unfold WeiszfeldAlgorithm.fit, WeiszfeldAlgorithm.run_loop,
    WeiszfeldAlgorithm.initial_median.
  rewrite Hi. change (replicate (S n) p !! 0%nat) with (Some p). cbv iota.
  eexists. rewrite bind_ret_l, Hloop, bind_ret_l. split; reflexivity.
Qed.

(** No call of the Weiszfeld estimator logs a warning. *)
Definition no_warning {P A} (m : M P A) : Prop :=
  Forall (λ e, is_warning e = false) (log_of m).

Lemma no_warning_bind {P A B} (m : M P A) (k : A → M P B) :
  no_warning m → (∀ a, no_warning (k a)) → no_warning (bind m k).
Proof.
  unfold no_warning, log_of. intros Hm Hk.
  destruct m as [l [a | e |]]; simpl; [|assumption ..].
  specialize (Hk a). destruct (k a) as [l' r]. simpl in *.
  apply Forall_app. split; assumption.
Qed.

Lemma no_warning_ret {P A} (a : A) : no_warning (ret (P := P) a).
Proof. constructor. Qed.

Lemma no_warning_raise {P A} (e : exn) : no_warning (raise (P := P) (A := A) e).
Proof. constructor. Qed.

Lemma no_warning_for_each {P A S} (xs : list A) (body : A → S → M P S) (s : S) :
  (∀ x s, no_warning (body x s)) → no_warning (for_each xs body s).
Proof.
  intros Hbody. revert s. induction xs as [|x xs IH]; intros s; simpl.
  - apply no_warning_ret.
  - apply no_warning_bind; [apply Hbody | exact IH].
Qed.

Lemma weiszfeld_fit_no_warning {P T} (self : WeiszfeldAlgorithm.t P T)
    (X : list P) (weights : option (list Q)) :
  no_warning (WeiszfeldAlgorithm.fit self X weights).
Proof.
  unfold WeiszfeldAlgorithm.fit. apply no_warning_bind;
    [|intros; apply no_warning_ret].
  unfold WeiszfeldAlgorithm.run_loop. apply no_warning_bind.
  { unfold WeiszfeldAlgorithm.initial_median.
    destruct (WeiszfeldAlgorithm.init self);
      [apply no_warning_ret|].
    destruct (X !! 0%nat); [apply no_warning_ret | apply no_warning_raise]. }
  intros p0. apply no_warning_for_each. intros iter cm.
  unfold WeiszfeldAlgorithm.fit_body. apply no_warning_bind.
  { destruct (single_iteration_returns self cm X
                (match weights with
                 | Some w => w
                 | None => WeiszfeldAlgorithm.equal_weights (length X)
                 end) (WeiszfeldAlgorithm.lr self)) as (l & p & Hs & Hl).
    unfold no_warning. rewrite Hs. exact Hl. }
  intros cm'. apply no_warning_bind.
  { unfold WeiszfeldAlgorithm.get_verbose.
    destruct (WeiszfeldAlgorithm.verbose self);
      [apply no_warning_raise | apply no_warning_ret]. }
  intros [v|]; [|apply no_warning_ret].
  apply no_warning_bind.
  { unfold WeiszfeldAlgorithm.print_due.
    destruct (WeiszfeldAlgorithm.print_every self) as [[| k | k]|];
      first [apply no_warning_ret | apply no_warning_raise]. }
  intros [|]; [|apply no_warning_ret].
  apply no_warning_bind; [repeat constructor | intros; apply no_warning_ret].
Qed.

(** ** Reaching [max_iter]: the warning *)

Lemma warning_log_reached {P} (max_iter : Z) :
  warning_log (P := P) max_iter max_iter = [LogWarning max_iter].
Proof. unfold warning_log. rewrite Z.eqb_refl. reflexivity. Qed.

(** C1 (as amended): when the progress signal of an AAC estimator stays above
    [epsilon] for [max_iter] rounds ([max_iter >= 1] for [AACFrechet],
    [max_iter >= 0] for the two others), [fit] logs the warning once and
    returns, the estimator holding the result of the last round; the
    Weiszfeld [fit] logs no warning on any input. *)
Theorem max_iter_reached_warns_and_returns :
  (∀ P (self : AACFrechet.t P) r X prev,
     1 <= AACFrechet.max_iter self →
     AACFrechet.initial_reference self r X = ret prev →
     (∀ k, (k < Z.to_nat (AACFrechet.max_iter self))%nat →
        (AACFrechet.epsilon self
         < AACFrechet.error (iterate (AACFrechet.loop_body self) k
                               (AACFrechet.loop_entry self prev X)))%Q) →
     ∃ self',
       AACFrechet.fit self r X
       = ([LogWarning (AACFrechet.max_iter self)], Returns self')
       ∧ AACFrechet.estimate_ self'
         = Some (AACFrechet.previous_estimate
                   (iterate (AACFrechet.loop_body self)
                      (Z.to_nat (AACFrechet.max_iter self))
                      (AACFrechet.loop_entry self prev X)))
       ∧ AACFrechet.n_iter_ self' = Some (AACFrechet.max_iter self))
  ∧ (∀ P G S (self : AACGPC.t P G S) r X x,
     0 <= AACGPC.max_iter self →
     AACGPC.initial_reference self r X = ret x →
     (∀ k, (k < Z.to_nat (AACGPC.max_iter self))%nat →
        (AACGPC.epsilon self
         < AACGPC.error (iterate (AACGPC.loop_body self) k
                           (AACGPC.loop_entry self x X)))%Q) →
     ∃ self',
       AACGPC.fit self r X = ([LogWarning (AACGPC.max_iter self)], Returns self')
       ∧ AACGPC.fitted self'
         = Some (AACGPC.solver
                   (iterate (AACGPC.loop_body self)
                      (Z.to_nat (AACGPC.max_iter self))
                      (AACGPC.loop_entry self x X))))
  ∧ (∀ F P R (self : AACRegression.t F P R) r X y y_,
     0 <= AACRegression.max_iter self →
     AACRegression.initial_reference self r y = ret y_ →
     (∀ k, (k < Z.to_nat (AACRegression.max_iter self))%nat →
        (AACRegression.epsilon self
         < AACRegression.error (iterate (AACRegression.loop_body self X) k
                                  (AACRegression.loop_entry self X y_ y)))%Q) →
     ∃ self',
       AACRegression.fit self r X y
       = ([LogWarning (AACRegression.max_iter self)], Returns self')
       ∧ AACRegression.fitted self'
         = Some (AACRegression.model
                   (iterate (AACRegression.loop_body self X)
                      (Z.to_nat (AACRegression.max_iter self))
                      (AACRegression.loop_entry self X y_ y))))
  ∧ (∀ P T (self : WeiszfeldAlgorithm.t P T) X weights,
     Forall (λ e, is_warning e = false)
       (log_of (WeiszfeldAlgorithm.fit self X weights))).
Proof.
  split; [|split; [|split]].
  - intros P self r X prev Hmax Hinit Hsig.
    destruct (frechet_run_loop self prev X) as (n & Hrun & Hn & Hstop).
    assert (n = Z.to_nat (AACFrechet.max_iter self)) as ->
      by (eapply stops_at_max_iter; [lia | exact Hsig | exact Hstop]).
    unfold AACFrechet.fit. rewrite Hinit, bind_ret_l, Hrun, bind_ret_l.
    rewrite frechet_finish, Hn, Z2Nat.id, warning_log_reached by lia.
    destruct (Z.to_nat (AACFrechet.max_iter self)) as [|m] eqn:Em; [lia|].
    rewrite frechet_new_estimate. eexists. repeat split.
  - intros P G S self r X x Hmax Hinit Hsig.
    destruct (gpc_run_loop self x X) as (n & Hrun & Hn & Hstop).
    assert (n = Z.to_nat (AACGPC.max_iter self)) as ->
      by (eapply stops_at_max_iter; [lia | exact Hsig | exact Hstop]).
    unfold AACGPC.fit. rewrite Hinit, bind_ret_l, Hrun, bind_ret_l.
    rewrite gpc_finish, Hn, Z2Nat.id, warning_log_reached by lia.
    eexists. repeat split.
  - intros F P R self r X y y_ Hmax Hinit Hsig.
    destruct (regression_run_loop self X y_ y) as (n & Hrun & Hn & Hstop).
    assert (n = Z.to_nat (AACRegression.max_iter self)) as ->
      by (eapply stops_at_max_iter; [lia | exact Hsig | exact Hstop]).
    unfold AACRegression.fit. rewrite Hinit, bind_ret_l, Hrun, bind_ret_l.
    rewrite regression_finish, Hn, Z2Nat.id, warning_log_reached by lia.
    eexists. repeat split.
  - intros P T self X weights. apply weiszfeld_fit_no_warning.
Qed.

(** An alignment that moves every sample up by one: the mean never settles. *)
Definition drifting_metric : AACFrechet.Metric Q :=
  {| AACFrechet.align_point_to_point := λ _ X, map (λ x : Q, (x + 1)%Q) X;
     AACFrechet.total_space_metric_dist := λ a b, Qabs (a - b) |}.

Definition drifting_frechet : AACFrechet.t Q :=
  AACFrechet.__init__ drifting_metric (1 # 1000000)%Q 3 (Some 0%Q) midrange.

Lemma max_iter_reached_warns_and_returns_witness :
  ∃ self',
    AACFrechet.fit drifting_frechet 0%nat [1%Q; 3%Q]
    = ([LogWarning 3], Returns self')
    ∧ AACFrechet.estimate_ self'
      = Some (AACFrechet.previous_estimate
                (iterate (AACFrechet.loop_body drifting_frechet) 3
                   (AACFrechet.loop_entry drifting_frechet 0%Q [1%Q; 3%Q])))
    ∧ AACFrechet.n_iter_ self' = Some 3.
Proof.
  apply (proj1 max_iter_reached_warns_and_returns Q drifting_frechet 0%nat
           [1%Q; 3%Q] 0%Q).
  - simpl. lia.
  - reflexivity.
  - intros k Hk. simpl in Hk.
    destruct k as [|[|[|k]]]; [vm_compute; reflexivity .. | lia].
Defined.

(** C1 (as stated) fails for the Weiszfeld estimator: as constructed, a fit
    with [max_iter = 1] raises and logs nothing; with [verbose] bound to
    [None] a fit that is still moving after its [max_iter = 3] rounds
    returns, and again logs no warning. *)
Lemma weiszfeld_reaches_max_iter_without_warning :
  WeiszfeldAlgorithm.fit
    (WeiszfeldAlgorithm.__init__ line line_backend 1 1 None None)
    [(2 # 1)%Q; (2 # 1)%Q] None
  = ([], Raises (AttributeError "verbose"))
  ∧ (let self :=
       {| WeiszfeldAlgorithm.metric := line;
          WeiszfeldAlgorithm.gs := line_backend;
          WeiszfeldAlgorithm.max_iter := 3;
          WeiszfeldAlgorithm.lr := (1 # 2)%Q;
          WeiszfeldAlgorithm.init := Some 0%Q;
          WeiszfeldAlgorithm.print_every := None;
          WeiszfeldAlgorithm.estimate_ := None;
          WeiszfeldAlgorithm.verbose := Attribute None |} in
     filter (λ e, is_warning e = true)
       (log_of (WeiszfeldAlgorithm.fit self [4%Q] None)) = []
     ∧ ∃ self' m,
         result_of (WeiszfeldAlgorithm.fit self [4%Q] None) = Returns self'
         ∧ WeiszfeldAlgorithm.estimate_ self' = Some m
         ∧ (m == 7 # 2)%Q).
Proof.
  split; [vm_compute; reflexivity|]. cbv zeta.
  split; [vm_compute; reflexivity|].
  eexists _, _. split; [vm_compute; reflexivity|].
  split; [reflexivity | vm_compute; reflexivity].
Qed.

(** ** The initial reference *)

(** [initial r X] is the sample at the index the generator delivered: of the
    draws [r] in any window of [length X] consecutive numbers, exactly one
    selects each sample. *)
Definition chooses_by_draw {P} (initial : nat → list P → M P P) : Prop :=
  ∀ X r x, X !! (r mod length X)%nat = Some x → initial r X = ret x.

(** Every sample is the initial reference under some draw. *)
Definition any_sample_can_start {P} (initial : nat → list P → M P P) : Prop :=
  ∀ X k x, X !! k = Some x → ∃ r, initial r X = ret x.

Lemma chooses_by_draw_any_sample {P} (initial : nat → list P → M P P) :
  chooses_by_draw initial → any_sample_can_start initial.
Proof.
  intros Hdraw X k x Hk. exists k. apply Hdraw.
  rewrite Nat.mod_small; [exact Hk|]. apply lookup_lt_Some in Hk. exact Hk.
Qed.

Lemma random_choice_by_draw {P} : chooses_by_draw (random_choice (P := P) (A := P)).
Proof. intros X r x Hx. unfold random_choice. rewrite Hx. reflexivity. Qed.




(** ** The flat metric *)

(** C7: [geodesic] raises a [ValueError] when both or neither of [end_point]
    and [initial_tangent_vec] are given; given the tangent vector alone it
    returns the path built from it; given the end point alone it returns the
    path built from [log(end_point, initial_point)]. *)
Theorem geodesic_argument_check {arr} (AA : ArrayArith arr) (AS : ArrayShape arr)
    (self : FlatRiemannianMetric.t) (initial_point end_point tangent_vec : arr) :
  (∃ msg,
     FlatRiemannianMetric.geodesic self initial_point (Some end_point)
       (Some tangent_vec) = Raises (ValueError msg))
  ∧ (∃ msg,
     FlatRiemannianMetric.geodesic self initial_point None None
     = Raises (ValueError msg))
  ∧ (∃ p,
     FlatRiemannianMetric.geodesic self initial_point None (Some tangent_vec)
     = Returns p
     ∧ FlatRiemannianMetric.path_initial_tangent_vec p = tangent_vec)
  ∧ FlatRiemannianMetric.geodesic self initial_point (Some end_point) None
    = outcome_map
        (λ v, FlatRiemannianMetric.make_path self initial_point v)
        (FlatRiemannianMetric.log self end_point initial_point)
  ∧ (∀ v, FlatRiemannianMetric.path_initial_tangent_vec
            (FlatRiemannianMetric.make_path self initial_point v) = v).
Proof.
  split; [|split; [|split; [|split]]].
  - eexists. reflexivity.
  - eexists. reflexivity.
  - eexists. split; reflexivity.
  - unfold FlatRiemannianMetric.geodesic.
    destruct (FlatRiemannianMetric.log self end_point initial_point);
      reflexivity.
  - reflexivity.
Qed.

Lemma elementwise_same_length {A} (f : A → A → A) (a b : list A) :
  length a = length b → elementwise f a b = Returns (zip_with f a b).
Proof. intros Hlen. unfold elementwise. rewrite decide_True; done. Qed.

(** [g] undoes [f] on the entries that satisfy [C]. *)
Lemma zip_with_cancel_l {A} (f g : A → A → A) (C : A → Prop) :
  (∀ x y, C y → g (f x y) x = y) →
  ∀ p v, length p = length v → Forall C v →
  zip_with g (zip_with f p v) p = v.
Proof.
  intros Hfg p. induction p as [|x p IH]; intros [|y v] Hlen HC;
    simpl in *; try congruence.
  inversion HC; subst. f_equal; [apply Hfg; assumption|].
  apply IH; [lia | assumption].
Qed.

Lemma zip_with_cancel_r {A} (f g : A → A → A) (C : A → Prop) :
  (∀ x y, C y → f x (g y x) = y) →
  ∀ p q, length q = length p → Forall C q →
  zip_with f p (zip_with g q p) = q.
Proof.
  intros Hfg p. induction p as [|x p IH]; intros [|y q] Hlen HC;
    simpl in *; try congruence.
  inversion HC; subst. f_equal; [apply Hfg; assumption|].
  apply IH; [lia | assumption].
Qed.

Lemma wrap64_in_range (z : Z) : in_int64 z → wrap64 z = z.
Proof.
  unfold in_int64, wrap64. intros Hz. rewrite Z.mod_small; lia.
Qed.

Lemma wrap64_add_sub (x y : Z) : in_int64 y → wrap64 (wrap64 (x + y) - x) = y.
Proof.
  intros Hy. rewrite <- (wrap64_in_range y Hy) at 2. unfold wrap64.
  f_equal.
  replace ((x + y + 2 ^ 63) mod 2 ^ 64 - 2 ^ 63 - x + 2 ^ 63)
    with ((x + y + 2 ^ 63) mod 2 ^ 64 - x) by lia.
  rewrite Zminus_mod_idemp_l. f_equal. lia.
Qed.

Lemma wrap64_sub_add (x y : Z) : in_int64 y → wrap64 (x + wrap64 (y - x)) = y.
Proof.
  intros Hy. rewrite <- (wrap64_in_range y Hy) at 2. unfold wrap64.
  f_equal.
  replace (x + ((y - x + 2 ^ 63) mod 2 ^ 64 - 2 ^ 63) + 2 ^ 63)
    with (x + (y - x + 2 ^ 63) mod 2 ^ 64) by lia.
  rewrite Zplus_mod_idemp_r. f_equal. lia.
Qed.

Section RoundTrip.
Context {A : Type} (SA : Scalar A) (C : A → Prop).
Hypothesis add_sub : ∀ x y : A, C y → s_sub (s_add x y) x = y.
Hypothesis sub_add : ∀ x y : A, C y → s_add x (s_sub y x) = y.

Lemma flat_log_exp (self : FlatRiemannianMetric.t) (p v : list A) :
  length p = length v → Forall C v →
  outcome_bind (FlatRiemannianMetric.exp (H := vector_arith SA) self v p)
    (λ x, FlatRiemannianMetric.log (H := vector_arith SA) self x p)
  = Returns v.
Proof.
  intros Hlen HC. unfold FlatRiemannianMetric.exp, FlatRiemannianMetric.log.
  simpl. rewrite elementwise_same_length by exact Hlen. simpl.
  rewrite elementwise_same_length by (rewrite length_zip_with; lia).
  f_equal. apply zip_with_cancel_l with (C := C); assumption.
Qed.

Lemma flat_exp_log (self : FlatRiemannianMetric.t) (p q : list A) :
  length q = length p → Forall C q →
  outcome_bind (FlatRiemannianMetric.log (H := vector_arith SA) self q p)
    (λ t, FlatRiemannianMetric.exp (H := vector_arith SA) self t p)
  = Returns q.
Proof.
  intros Hlen HC. unfold FlatRiemannianMetric.exp, FlatRiemannianMetric.log.
  simpl. rewrite elementwise_same_length by exact Hlen. simpl.
  rewrite elementwise_same_length by (rewrite length_zip_with; lia).
  f_equal. apply zip_with_cancel_r with (C := C); assumption.
Qed.

End RoundTrip.

(** C8 (as amended): [exp] is [base_point + tangent_vec] and [log] is
    [point - base_point]; on arrays of one length whose entries are 64-bit
    integers (with wrap-around), unbounded integers or exact rationals,
    [log(exp(v, p), p)] is [v] and [exp(log(q, p), p)] is [q], exactly. *)
Theorem flat_exp_log_round_trip_exact (self : FlatRiemannianMetric.t) :
  (∀ p v q : list Z,
     length p = length v → length q = length p →
     Forall in_int64 v → Forall in_int64 q →
     FlatRiemannianMetric.exp (H := vector_arith int64_scalar) self v p
     = Returns (zip_with (λ a b, wrap64 (a + b)) p v)
     ∧ FlatRiemannianMetric.log (H := vector_arith int64_scalar) self q p
       = Returns (zip_with (λ a b, wrap64 (a - b)) q p)
     ∧ outcome_bind
         (FlatRiemannianMetric.exp (H := vector_arith int64_scalar) self v p)
         (λ x, FlatRiemannianMetric.log (H := vector_arith int64_scalar) self x p)
       = Returns v
     ∧ outcome_bind
         (FlatRiemannianMetric.log (H := vector_arith int64_scalar) self q p)
         (λ t, FlatRiemannianMetric.exp (H := vector_arith int64_scalar) self t p)
       = Returns q)
  ∧ (∀ p v q : list Z,
     length p = length v → length q = length p →
     outcome_bind
       (FlatRiemannianMetric.exp (H := vector_arith Z_scalar) self v p)
       (λ x, FlatRiemannianMetric.log (H := vector_arith Z_scalar) self x p)
     = Returns v
     ∧ outcome_bind
         (FlatRiemannianMetric.log (H := vector_arith Z_scalar) self q p)
         (λ t, FlatRiemannianMetric.exp (H := vector_arith Z_scalar) self t p)
       = Returns q)
  ∧ (∀ p v q : list Qc,
     length p = length v → length q = length p →
     outcome_bind
       (FlatRiemannianMetric.exp (H := vector_arith Qc_scalar) self v p)
       (λ x, FlatRiemannianMetric.log (H := vector_arith Qc_scalar) self x p)
     = Returns v
     ∧ outcome_bind
         (FlatRiemannianMetric.log (H := vector_arith Qc_scalar) self q p)
         (λ t, FlatRiemannianMetric.exp (H := vector_arith Qc_scalar) self t p)
       = Returns q).
Proof.
  split; [|split].
  - intros p v q Hv Hq Cv Cq. split; [|split; [|split]].
    + apply elementwise_same_length. exact Hv.
    + apply elementwise_same_length. exact Hq.
    + apply flat_log_exp with (C := in_int64); [|assumption ..].
      intros x y Hy. apply wrap64_add_sub. exact Hy.
    + apply flat_exp_log with (C := in_int64); [|assumption ..].
      intros x y Hy. apply wrap64_sub_add. exact Hy.
  - intros p v q Hv Hq. split.
    + apply flat_log_exp with (C := λ _, True);
        [intros x y _; simpl; lia | exact Hv | apply Forall_true; done].
    + apply flat_exp_log with (C := λ _, True);
        [intros x y _; simpl; lia | exact Hq | apply Forall_true; done].
  - intros p v q Hv Hq. split.
    + apply flat_log_exp with (C := λ _, True);
        [intros x y _; simpl; ring | exact Hv | apply Forall_true; done].
    + apply flat_exp_log with (C := λ _, True);
        [intros x y _; simpl; ring | exact Hq | apply Forall_true; done].
Qed.

Definition plane_metric : FlatRiemannianMetric.t :=
  {| FlatRiemannianMetric._space :=
       {| FlatRiemannianMetric.dim := 2; FlatRiemannianMetric.point_ndim := 1;
          FlatRiemannianMetric.shape := [2%nat] |} |}.

Lemma flat_exp_log_round_trip_exact_witness :
  FlatRiemannianMetric.exp (H := vector_arith int64_scalar) plane_metric
    [1; -4] [9223372036854775807; 5]
  = Returns [-9223372036854775808; 1]
  ∧ outcome_bind
      (FlatRiemannianMetric.exp (H := vector_arith int64_scalar) plane_metric
         [1; -4] [9223372036854775807; 5])
      (λ x, FlatRiemannianMetric.log (H := vector_arith int64_scalar)
              plane_metric x [9223372036854775807; 5])
    = Returns [1; -4].
Proof.
  destruct (proj1 (flat_exp_log_round_trip_exact plane_metric)
              [9223372036854775807; 5] [1; -4] [7; 7] eq_refl eq_refl)
    as (Hexp & _ & Hround & _).
  - repeat constructor; unfold in_int64; lia.
  - repeat constructor; unfold in_int64; lia.
  - split; [exact Hexp | exact Hround].
Defined.

(** C8 (as stated) fails on [float64] arrays: [1e16 + 1.0] rounds to [1e16],
    so [log(exp(v, p), p)] is [0.0] for [v = 1.0], [p = 1e16], and
    [exp(log(q, p), p)] is [0.0] for [q = 1.0]. *)
Lemma flat_round_trip_float64_inexact :
  FlatRiemannianMetric.exp (H := vector_arith float64_scalar) plane_metric
    [1%float; 1%float] [1e16%float; 1e16%float]
  = Returns [1e16%float; 1e16%float]
  ∧ outcome_bind
      (FlatRiemannianMetric.exp (H := vector_arith float64_scalar) plane_metric
         [1%float; 1%float] [1e16%float; 1e16%float])
      (λ x, FlatRiemannianMetric.log (H := vector_arith float64_scalar)
              plane_metric x [1e16%float; 1e16%float])
    = Returns [0%float; 0%float]
  ∧ outcome_bind
      (FlatRiemannianMetric.log (H := vector_arith float64_scalar) plane_metric
         [1%float; 1%float] [1e16%float; 1e16%float])
      (λ t, FlatRiemannianMetric.exp (H := vector_arith float64_scalar)
              plane_metric t [1e16%float; 1e16%float])
    = Returns [0%float; 0%float]
  ∧ array_eqb (H := float64_scalar) [0%float; 0%float] [1%float; 1%float]
    = false.
Proof.
  repeat split; vm_compute; reflexivity.
Qed.

(** ** Permutation vectors *)

(** [h] holds [i] at position [j] exactly when [g] holds [j] at position [i]. *)
Definition inverse_of (g h : list nat) : Prop :=
  length h = length g ∧ ∀ i j, g !! i = Some j ↔ h !! j = Some i.

Lemma elem_of_enumerate {A} (l : list A) (i : nat) (x : A) :
  (i, x) ∈ enumerate l ↔ l !! i = Some x.
Proof.
  unfold enumerate. rewrite list_elem_of_lookup. split.
  - intros [k Hk]. apply lookup_zip_with_Some in Hk as (a & b & Hab & Ha & Hb).
    injection Hab as -> ->. apply lookup_seq in Ha as [-> _]. exact Hb.
  - intros Hx. exists i. apply lookup_zip_with_Some. exists i, x.
    split; [reflexivity|]. split; [|exact Hx].
    apply lookup_seq. split; [reflexivity|]. eapply lookup_lt_Some; eauto.
Qed.

(** The loop of [_inverse_element_single] over index pairs whose targets are
    in range and pairwise distinct: every pair is written, nothing else is
    touched. *)
Lemma assign_all_spec (pairs : list (nat * nat)) (acc : list nat) :
  (∀ val idx, (val, idx) ∈ pairs → (idx < length acc)%nat) →
  NoDup pairs.*2 →
  ∃ h, _PermutationActionMixins.assign_all pairs acc = Returns h
       ∧ length h = length acc
       ∧ (∀ val idx, (val, idx) ∈ pairs → h !! idx = Some val)
       ∧ (∀ j, j ∉ pairs.*2 → h !! j = acc !! j).
Proof.
  revert acc. induction pairs as [|[val idx] rest IH]; intros acc Hlt Hnd.
  - exists acc. simpl. split; [reflexivity|]. split; [reflexivity|].
    split; [|intros j _; reflexivity].
    intros v i Hvi. apply elem_of_nil in Hvi. contradiction.
  - assert (Hidx : (idx < length acc)%nat) by (apply (Hlt val idx); left).
    simpl. rewrite decide_True by exact Hidx.
    apply NoDup_cons in Hnd as [Hfresh Hnd].
    destruct (IH (<[idx:=val]> acc)) as (h & Hrun & Hlen & Hin & Hout).
    + intros v i Hvi. rewrite length_insert. apply (Hlt v i). right. exact Hvi.
    + exact Hnd.
    + exists h. split; [exact Hrun|].
      split; [rewrite Hlen, length_insert; reflexivity|]. split.
      * intros v i Hvi. apply elem_of_cons in Hvi as [Heq | Hvi].
        -- injection Heq as -> ->. rewrite Hout by exact Hfresh.
           apply list_lookup_insert_eq. exact Hidx.
        -- apply Hin. exact Hvi.
      * intros j Hj. simpl in Hj. apply not_elem_of_cons in Hj as [Hne Hj].
        rewrite Hout by exact Hj. apply list_lookup_insert_ne. congruence.
Qed.

Lemma permutation_facts (n : nat) (g : list nat) :
  g ≡ₚ seq 0 n →
  length g = n ∧ NoDup g ∧ ∀ x, x ∈ g ↔ (x < n)%nat.
Proof.
  intros Hperm. split; [|split].
  - rewrite Hperm. apply length_seq.
  - rewrite Hperm. apply NoDup_seq.
  - intros x. rewrite Hperm, elem_of_seq. lia.
Qed.

Lemma inverse_element_single_spec (n : nat) (g : list nat) :
  g ≡ₚ seq 0 n →
  ∃ h, _PermutationActionMixins._inverse_element_single g = Returns h
       ∧ inverse_of g h.
Proof.
  intros Hperm.
  destruct (permutation_facts n g Hperm) as (Hlen & Hnd & Hin).
  unfold _PermutationActionMixins._inverse_element_single.
  destruct (assign_all_spec (enumerate g) (replicate (length g) O))
    as (h & Hrun & Hh & Hwritten & _).
  - intros val idx Hp. apply elem_of_enumerate in Hp.
    rewrite length_replicate, Hlen. apply Hin.
    apply list_elem_of_lookup. eauto.
  - unfold enumerate. rewrite snd_zip by (rewrite length_seq; lia). exact Hnd.
  - rewrite length_replicate in Hh.
    exists h. split; [exact Hrun|]. split; [exact Hh|].
    intros i j. split.
    + intros Hg. apply Hwritten, elem_of_enumerate. exact Hg.
    + intros Hj.
      assert (Hjn : (j < n)%nat)
        by (apply lookup_lt_Some in Hj; lia).
      apply Hin, list_elem_of_lookup in Hjn as [i' Hi'].
      assert (Hj' : h !! j = Some i')
        by (apply Hwritten, elem_of_enumerate; exact Hi').
      congruence.
Qed.

Lemma inverse_of_sym (n : nat) (g h : list nat) :
  g ≡ₚ seq 0 n → inverse_of g h → h ≡ₚ seq 0 n ∧ inverse_of h g.
Proof.
  intros Hperm [Hlen Hinv].
  destruct (permutation_facts n g Hperm) as (Hg & _ & _).
  split.
  - apply NoDup_Permutation; [|apply NoDup_seq|].
    + apply NoDup_alt. intros i j x Hi Hj.
      apply Hinv in Hi, Hj. congruence.
    + intros x. rewrite elem_of_seq, list_elem_of_lookup. split.
      * intros [j Hj]. apply Hinv, lookup_lt_Some in Hj. lia.
      * intros [_ Hx].
        destruct (lookup_lt_is_Some_2 g x) as [j Hj]; [lia|].
        exists j. apply Hinv. exact Hj.
  - split; [congruence|]. intros i j. symmetry. apply Hinv.
Qed.

Lemma inverse_of_unique (h g g' : list nat) :
  inverse_of h g → inverse_of h g' → g = g'.
Proof.
  intros [_ H1] [_ H2]. apply list_eq. intros i.
  destruct (g !! i) as [x|] eqn:E.
  - symmetry. apply H2, H1. exact E.
  - destruct (g' !! i) as [x|] eqn:E'; [|reflexivity].
    apply H2, H1 in E'. congruence.
Qed.

Lemma inverse_element_involutive (n : nat) (g : list nat) :
  g ≡ₚ seq 0 n →
  ∃ h, _PermutationActionMixins._inverse_element_single g = Returns h
       ∧ _PermutationActionMixins._inverse_element_single h = Returns g
       ∧ h ≡ₚ seq 0 n
       ∧ inverse_of g h.
Proof.
  intros Hperm.
  destruct (inverse_element_single_spec n g Hperm) as (h & Hrun & Hinv).
  destruct (inverse_of_sym n g h Hperm Hinv) as [Hh Hsym].
  destruct (inverse_element_single_spec n h Hh) as (g' & Hrun' & Hinv').
  exists h. split; [exact Hrun|]. split; [|split; assumption].
  rewrite Hrun'. f_equal. symmetry.
  eapply inverse_of_unique; eassumption.
Qed.

(** ** Matrices with a permutation matrix as a factor *)

(** The laws of the scalars that the products below use. *)
Record scalar_laws {A} (SA : Scalar A) : Prop := {
  add_0_l : ∀ x : A, s_add s_zero x = x;
  add_0_r : ∀ x : A, s_add x s_zero = x;
  mul_0_l : ∀ x : A, s_mul s_zero x = s_zero;
  mul_0_r : ∀ x : A, s_mul x s_zero = s_zero;
  mul_1_l : ∀ x : A, s_mul s_one x = x;
  mul_1_r : ∀ x : A, s_mul x s_one = x
}.

(** The row with a one at [k] and zeros elsewhere. *)
Definition one_hot {A} `{Scalar A} (n k : nat) : list A :=
  <[k := s_one]> (replicate n s_zero).

(** The entries of [l] at the positions listed in [g]. *)
Definition take_at {B} (d : B) (g : list nat) (l : list B) : list B :=
  map (λ gi, nth gi l d) g.

Lemma nth_map_lt {B C} (f : B → C) (l : list B) (i : nat) (d : C) (d' : B) :
  (i < length l)%nat → nth i (map f l) d = f (nth i l d').
Proof.
  intros Hi. rewrite (nth_indep _ d (f d')) by (rewrite length_map; exact Hi).
  apply map_nth.
Qed.

Lemma map_nth_seq {B} (l : list B) (d : B) (n : nat) :
  length l = n → map (λ j, nth j l d) (seq 0 n) = l.
Proof.
  intros Hlen. apply (nth_ext _ _ d d).
  - rewrite length_map, length_seq. congruence.
  - intros i Hi. rewrite length_map, length_seq in Hi.
    rewrite (nth_map_lt _ _ _ _ O) by (rewrite length_seq; exact Hi).
    rewrite seq_nth by exact Hi. reflexivity.
Qed.

Lemma take_at_inverse {B} (d : B) (n : nat) (g h : list nat) (l : list B) :
  g ≡ₚ seq 0 n → inverse_of g h → length l = n →
  take_at d h (take_at d g l) = l.
Proof.
  intros Hperm [Hlen Hinv] Hl.
  destruct (permutation_facts n g Hperm) as (Hg & _ & _).
  apply (nth_ext _ _ d d).
  - unfold take_at. rewrite length_map. congruence.
  - intros i Hi. unfold take_at in Hi. rewrite length_map in Hi.
    destruct (lookup_lt_is_Some_2 h i Hi) as [j Hj].
    assert (Hgj : g !! j = Some i) by (apply Hinv; exact Hj).
    unfold take_at at 1. rewrite (nth_map_lt _ _ _ _ O) by exact Hi.
    rewrite (nth_lookup_Some _ _ _ _ Hj).
    unfold take_at. rewrite (nth_map_lt _ _ _ _ O)
      by (eapply lookup_lt_Some; exact Hgj).
    rewrite (nth_lookup_Some _ _ _ _ Hgj). reflexivity.
Qed.

Lemma take_at_map {B C} (f : B → C) (d : B) (d' : C) (g : list nat)
    (l : list B) :
  Forall (λ x, (x < length l)%nat) g →
  take_at d' g (map f l) = map f (take_at d g l).
Proof.
  intros Hg. unfold take_at. rewrite map_map. apply map_ext_Forall.
  eapply Forall_impl; [exact Hg|]. intros x Hx. simpl.
  apply nth_map_lt. exact Hx.
Qed.

Lemma has_shapeb_true {A} (r c : nat) (m : matrix A) :
  has_shape r c m → has_shapeb r c m = true.
Proof.
  intros [Hr Hc]. unfold has_shapeb. apply andb_true_iff. split.
  - apply Nat.eqb_eq. exact Hr.
  - apply forallb_forall. intros row Hrow. apply Nat.eqb_eq.
    rewrite List.Forall_forall in Hc. apply Hc. exact Hrow.
Qed.

Lemma has_shape_ncols {A} (n : nat) (m : matrix A) :
  has_shape n n m → ncols m = n.
Proof.
  intros [Hr Hc]. destruct m as [|row m]; simpl in *; [congruence|].
  inversion Hc; subst. assumption.
Qed.

Lemma has_shape_row {A} (r c : nat) (m : matrix A) (i : nat) :
  has_shape r c m → (i < r)%nat → length (nth i m []) = c.
Proof.
  intros [Hr Hc] Hi. rewrite List.Forall_forall in Hc. apply Hc.
  apply nth_In. lia.
Qed.

Section PermutationMatrices.
Context {A : Type} (SA : Scalar A) (laws : scalar_laws SA).

Lemma dot_zeros_l (n : nat) (col : list A) :
  dot (replicate n s_zero) col = s_zero.
Proof.
  revert col. induction n as [|n IH]; intros [|x col]; try reflexivity.
  unfold dot in *. simpl. rewrite IH, (mul_0_l SA laws), (add_0_l SA laws).
  reflexivity.
Qed.

Lemma dot_zeros_r (n : nat) (row : list A) :
  dot row (replicate n s_zero) = s_zero.
Proof.
  revert row. induction n as [|n IH]; intros [|x row]; try reflexivity.
  unfold dot in *. simpl. rewrite IH, (mul_0_r SA laws), (add_0_l SA laws).
  reflexivity.
Qed.

Lemma dot_one_hot_l (n k : nat) (col : list A) :
  (k < n)%nat → length col = n → dot (one_hot n k) col = nth k col s_zero.
Proof.
  revert k col. induction n as [|n IH]; intros k col Hk Hlen; [lia|].
  destruct col as [|x col]; [discriminate|]. simpl in Hlen.
  destruct k as [|k]; unfold one_hot, dot; simpl.
  - fold (dot (replicate n s_zero) col).
    rewrite dot_zeros_l, (mul_1_l SA laws), (add_0_r SA laws). reflexivity.
  - fold (one_hot n k). fold (dot (one_hot n k) col).
    rewrite IH by lia. rewrite (mul_0_l SA laws), (add_0_l SA laws).
    reflexivity.
Qed.

Lemma dot_one_hot_r (n k : nat) (row : list A) :
  (k < n)%nat → length row = n → dot row (one_hot n k) = nth k row s_zero.
Proof.
  revert k row. induction n as [|n IH]; intros k row Hk Hlen; [lia|].
  destruct row as [|x row]; [discriminate|]. simpl in Hlen.
  destruct k as [|k]; unfold one_hot, dot; simpl.
  - fold (dot row (replicate n s_zero)).
    rewrite dot_zeros_r, (mul_1_r SA laws), (add_0_r SA laws). reflexivity.
  - fold (one_hot n k). fold (dot row (one_hot n k)).
    rewrite IH by lia. rewrite (mul_0_r SA laws), (add_0_l SA laws).
    reflexivity.
Qed.

Lemma length_one_hot (n k : nat) : length (one_hot n k) = n.
Proof. unfold one_hot. rewrite length_insert, length_replicate. reflexivity. Qed.

Lemma nth_one_hot (n k j : nat) :
  (k < n)%nat →
  nth j (one_hot n k) s_zero = if decide (j = k) then s_one else s_zero.
Proof.
  intros Hk. unfold one_hot. rewrite nth_lookup.
  destruct (decide (j = k)) as [-> | Hne].
  - rewrite list_lookup_insert_eq by (rewrite length_replicate; exact Hk).
    reflexivity.
  - rewrite list_lookup_insert_ne by congruence.
    destruct (replicate n s_zero !! j) as [x|] eqn:E; [|reflexivity].
    apply lookup_replicate in E as [-> _]. reflexivity.
Qed.

End PermutationMatrices.

Section PermutationActions.
Context {A : Type} (SA : Scalar A) (laws : scalar_laws SA).

(** The scatter of [permutation_matrix_from_vector], row after row: with
    the rows of [g1] written and those of [g2] still zero, writing the ones
    of [g2] gives the one-hot rows of [g1 ++ g2]. *)
Lemma scatter_rows (n : nat) (g2 g1 : list nat) :
  Forall (λ x, (x < n)%nat) g2 →
  scatter
    (zip (zip (seq (length g1) (length g2)) g2) (replicate (length g2) s_one))
    (map (one_hot n) g1 ++ replicate (length g2) (replicate n s_zero))
  = Returns (map (one_hot n) (g1 ++ g2)).
Proof.
  revert g1. induction g2 as [|x g2 IH]; intros g1 Hlt.
  - simpl. rewrite !app_nil_r. reflexivity.
  - apply Forall_cons in Hlt as [Hx Hlt]. simpl.
    rewrite lookup_app_r by (rewrite length_map; lia).
    rewrite length_map, Nat.sub_diag. simpl.
    rewrite decide_True by (rewrite length_replicate; exact Hx).
    rewrite <- (length_map (one_hot n) g1) at 2.
    rewrite insert_app_r_alt by lia. rewrite Nat.sub_diag. simpl.
    fold (one_hot n x).
    specialize (IH (g1 ++ [x]) Hlt).
    rewrite length_app, map_app in IH. simpl in IH.
    rewrite Nat.add_1_r, <- app_assoc in IH. simpl in IH.
    rewrite IH, <- app_assoc. reflexivity.
Qed.

Lemma permutation_matrix_one_hot (n : nat) (g : list nat) :
  length g = n → Forall (λ x, (x < n)%nat) g →
  permutation_matrix_from_vector g = Returns (map (one_hot n) g).
Proof.
  intros Hlen Hlt. unfold permutation_matrix_from_vector, array_from_sparse.
  rewrite Hlen. subst n.
  exact (scatter_rows (length g) g [] Hlt).
Qed.

Lemma has_shape_one_hot (n : nat) (g : list nat) :
  length g = n → has_shape n n (map (one_hot n) g).
Proof.
  intros Hlen. split; [rewrite length_map; exact Hlen|].
  apply List.Forall_forall. intros row Hrow.
  apply in_map_iff in Hrow as (k & <- & _). apply length_one_hot.
Qed.

Lemma transpose_square (n : nat) (m : matrix A) :
  has_shape n n m →
  transpose m = map (λ j, map (λ row, nth j row s_zero) m) (seq 0 n).
Proof.
  intros Hm. unfold transpose. rewrite (has_shape_ncols n m Hm). reflexivity.
Qed.

Lemma has_shape_transpose (n : nat) (m : matrix A) :
  has_shape n n m → has_shape n n (transpose m).
Proof.
  intros Hm. rewrite (transpose_square n m Hm). destruct Hm as [Hr _].
  split; [rewrite length_map, length_seq; reflexivity|].
  apply List.Forall_forall. intros row Hrow.
  apply in_map_iff in Hrow as (j & <- & _). rewrite length_map. exact Hr.
Qed.

Lemma transpose_involutive (n : nat) (m : matrix A) :
  has_shape n n m → transpose (transpose m) = m.
Proof.
  intros Hm.
  rewrite (transpose_square n (transpose m) (has_shape_transpose n m Hm)).
  rewrite (transpose_square n m Hm).
  transitivity (map (λ j, nth j m []) (seq 0 n));
    [|apply map_nth_seq; destruct Hm; assumption].
  apply map_ext_in. intros j Hj. apply in_seq in Hj.
  rewrite map_map.
  rewrite <- (map_nth_seq (nth j m []) s_zero n)
    by (apply (has_shape_row n n); [exact Hm | lia]).
  apply map_ext. intros i.
  apply (nth_map_lt (λ row, nth i row s_zero) m j s_zero []).
  destruct Hm as [Hr _]. lia.
Qed.

Lemma matmul_returns (r k c : nat) (a b : matrix A) :
  has_shape r k a → has_shape k c b → (k = O → c = O) →
  matmul a b = Returns (map (λ row, map (λ col, dot row col) (transpose b)) a).
Proof.
  intros Ha Hb Hkc. unfold matmul.
  assert (Hlb : length b = k) by (destruct Hb; assumption).
  assert (Hla : length a = r) by (destruct Ha; assumption).
  rewrite Hla, Hlb, (has_shapeb_true r k a Ha).
  assert (Hnc : has_shape k (ncols b) b).
  { destruct b as [|row b]; simpl.
    - destruct Hb as [Hk _]. simpl in Hk. subst k. split; [reflexivity|constructor].
    - destruct Hb as [Hk Hrows]. inversion Hrows; subst.
      split; [reflexivity|]. assumption. }
  rewrite (has_shapeb_true k _ b Hnc). reflexivity.
Qed.

(** [P_g · p]: the rows of [p] at the positions listed in [g]. *)
Lemma permutation_matrix_matmul (n : nat) (g : list nat) (p : matrix A) :
  length g = n → Forall (λ x, (x < n)%nat) g → has_shape n n p →
  matmul (map (one_hot n) g) p = Returns (take_at [] g p).
Proof.
  intros Hlen Hlt Hp.
  rewrite (matmul_returns n n n) by (auto using has_shape_one_hot).
  f_equal. rewrite map_map. unfold take_at. apply map_ext_Forall.
  eapply Forall_impl; [exact Hlt|]. intros k Hk. simpl in Hk. simpl.
  rewrite (transpose_square n p Hp), map_map.
  rewrite <- (map_nth_seq (nth k p []) s_zero n)
    by (apply (has_shape_row n n); assumption).
  apply map_ext. intros j.
  rewrite (dot_one_hot_l SA laws n k)
    by (try exact Hk; rewrite length_map; destruct Hp; assumption).
  apply (nth_map_lt (λ row, nth j row s_zero) p k s_zero []).
  destruct Hp as [Hr _]. lia.
Qed.

(** [m · P_gᵀ]: in every row of [m], the entries at the positions listed
    in [g]. *)
Lemma matmul_permutation_matrix_transpose (n : nat) (g : list nat)
    (m : matrix A) :
  length g = n → Forall (λ x, (x < n)%nat) g → has_shape n n m →
  matmul m (transpose (map (one_hot n) g))
  = Returns (map (take_at s_zero g) m).
Proof.
  intros Hlen Hlt Hm.
  rewrite (matmul_returns n n n)
    by (auto using has_shape_one_hot, has_shape_transpose).
  rewrite (transpose_involutive n) by (apply has_shape_one_hot; exact Hlen).
  f_equal. apply map_ext_Forall. destruct Hm as [_ Hrows].
  eapply Forall_impl; [exact Hrows|]. intros row Hrow. simpl in Hrow. simpl.
  rewrite map_map. unfold take_at. apply map_ext_Forall.
  eapply Forall_impl; [exact Hlt|]. intros k Hk. simpl in Hk. simpl.
  apply (dot_one_hot_r SA laws n k); assumption.
Qed.

(** The transpose of the matrix of [g] is the matrix of its inverse. *)
Lemma transpose_permutation_matrix (n : nat) (g h : list nat) :
  g ≡ₚ seq 0 n → inverse_of g h →
  transpose (map (one_hot n) g) = map (one_hot n) h.
Proof.
  intros Hperm Hinv.
  destruct (permutation_facts n g Hperm) as (Hg & _ & Hin).
  destruct (inverse_of_sym n g h Hperm Hinv) as [Hpermh _].
  destruct (permutation_facts n h Hpermh) as (Hh & _ & Hinh).
  destruct Hinv as [_ Hinv].
  rewrite (transpose_square n) by (apply has_shape_one_hot; exact Hg).
  apply (nth_ext _ _ [] []).
  { rewrite !length_map, length_seq. congruence. }
  intros j Hj. rewrite length_map, length_seq in Hj.
  rewrite (nth_map_lt _ _ _ _ O) by (rewrite length_seq; exact Hj).
  rewrite seq_nth by exact Hj. simpl.
  rewrite (nth_map_lt _ _ _ _ O) by lia.
  destruct (lookup_lt_is_Some_2 h j) as [i Hi]; [lia|].
  rewrite (nth_lookup_Some _ _ _ _ Hi).
  assert (Hin' : (i < n)%nat) by (apply Hinh, list_elem_of_lookup; eauto).
  rewrite map_map. apply (nth_ext _ _ s_zero s_zero).
  { rewrite length_map, length_one_hot. exact Hg. }
  intros k Hk. rewrite length_map in Hk.
  rewrite (nth_map_lt _ _ _ _ O) by exact Hk.
  destruct (lookup_lt_is_Some_2 g k Hk) as [x Hx].
  rewrite (nth_lookup_Some _ _ _ _ Hx).
  assert (Hxn : (x < n)%nat) by (apply Hin, list_elem_of_lookup; eauto).
  rewrite !(nth_one_hot SA) by assumption.
  destruct (decide (j = x)) as [-> | Hne]; destruct (decide (k = i)) as [-> | Hne'];
    try reflexivity.
  - apply Hinv in Hx. congruence.
  - apply Hinv in Hi. congruence.
Qed.

End PermutationActions.

Lemma permutation_in_range (n : nat) (g : list nat) :
  g ≡ₚ seq 0 n → length g = n ∧ Forall (λ x, (x < n)%nat) g.
Proof.
  intros Hperm. destruct (permutation_facts n g Hperm) as (Hlen & _ & Hin).
  split; [exact Hlen|]. apply Forall_forall. intros x Hx. apply Hin. exact Hx.
Qed.

Lemma has_shape_take_rows {A} (n : nat) (g : list nat) (p : matrix A) :
  length g = n → Forall (λ x, (x < n)%nat) g → has_shape n n p →
  has_shape n n (take_at [] g p).
Proof.
  intros Hlen Hlt Hp. split; [unfold take_at; rewrite length_map; exact Hlen|].
  apply List.Forall_forall. intros row Hrow.
  apply in_map_iff in Hrow as (k & <- & Hk).
  rewrite List.Forall_forall in Hlt. apply (has_shape_row n n); auto.
Qed.

Lemma has_shape_take_cols {A} (d : A) (n : nat) (g : list nat) (m : matrix A) :
  length g = n → has_shape n n m → has_shape n n (map (take_at d g) m).
Proof.
  intros Hlen [Hr _]. split; [rewrite length_map; exact Hr|].
  apply List.Forall_forall. intros row Hrow.
  apply in_map_iff in Hrow as (r & <- & _).
  unfold take_at. rewrite length_map. exact Hlen.
Qed.

Section RoundTripOfActions.
Context {A : Type} (SA : Scalar A) (laws : scalar_laws SA).
Context (n : nat) (g h : list nat) (p : matrix A).
Hypothesis g_permutation : g ≡ₚ seq 0 n.
Hypothesis h_inverse : inverse_of g h.
Hypothesis p_square : has_shape n n p.

Lemma permutation_action_call (k : list nat) (m : matrix A) :
  length k = n → Forall (λ x, (x < n)%nat) k → has_shape n n m →
  PermutationAction.__call__ k m
  = Returns (map (take_at s_zero k) (take_at [] k m)).
Proof.
  intros Hlen Hlt Hm. unfold PermutationAction.__call__.
  rewrite (permutation_matrix_one_hot SA n k Hlen Hlt).
  unfold CongruenceAction.__call__, Matrices_mul.
  rewrite (permutation_matrix_matmul SA laws n k m Hlen Hlt Hm).
  apply (matmul_permutation_matrix_transpose SA laws n k); try assumption.
  apply has_shape_take_rows; assumption.
Qed.

Lemma permutation_action_inverse :
  outcome_bind (PermutationAction.__call__ g p) (PermutationAction.__call__ h)
  = Returns p.
Proof.
  destruct (permutation_in_range n g g_permutation) as [Hg Hgn].
  destruct (inverse_of_sym n g h g_permutation h_inverse) as [Hperm _].
  destruct (permutation_in_range n h Hperm) as [Hh Hhn].
  rewrite (permutation_action_call g p Hg Hgn p_square). simpl.
  rewrite (permutation_action_call h) by
    (try assumption;
     apply has_shape_take_cols, has_shape_take_rows; assumption).
  f_equal.
  rewrite (take_at_map (take_at s_zero g) [] [] h)
    by (unfold take_at; rewrite length_map, Hg; exact Hhn).
  rewrite (take_at_inverse [] n g h p g_permutation h_inverse)
    by (destruct p_square; assumption).
  rewrite map_map. rewrite <- (map_id p) at 2. apply map_ext_Forall.
  destruct p_square as [_ Hrows].
  eapply Forall_impl; [exact Hrows|]. intros row Hrow. simpl in Hrow. simpl.
  apply (take_at_inverse s_zero n g h row); assumption.
Qed.

Lemma row_permutation_action_call (k k' : list nat) (m : matrix A) :
  k ≡ₚ seq 0 n → inverse_of k k' → has_shape n n m →
  RowPermutationAction.__call__ k m = Returns (take_at [] k' m).
Proof.
  intros Hperm Hinv Hm.
  destruct (permutation_in_range n k Hperm) as [Hk Hkn].
  destruct (inverse_of_sym n k k' Hperm Hinv) as [Hperm' _].
  destruct (permutation_in_range n k' Hperm') as [Hk' Hkn'].
  unfold RowPermutationAction.__call__.
  rewrite (permutation_matrix_one_hot SA n k Hk Hkn).
  rewrite (transpose_permutation_matrix SA n k k' Hperm Hinv).
  apply (permutation_matrix_matmul SA laws n k'); assumption.
Qed.

Lemma row_permutation_action_inverse :
  outcome_bind (RowPermutationAction.__call__ g p)
    (RowPermutationAction.__call__ h)
  = Returns p.
Proof.
  destruct (inverse_of_sym n g h g_permutation h_inverse) as [Hperm Hsym].
  destruct (permutation_in_range n h Hperm) as [Hh Hhn].
  rewrite (row_permutation_action_call g h p g_permutation h_inverse p_square).
  simpl.
  rewrite (row_permutation_action_call h g) by
    (try assumption; apply has_shape_take_rows; assumption).
  f_equal. apply (take_at_inverse [] n h g p Hperm Hsym).
  destruct p_square; assumption.
Qed.

End RoundTripOfActions.


Lemma Z_scalar_laws : scalar_laws Z_scalar.
Proof. split; intros x; simpl; lia. Qed.

(** The matrix of [[1; 0; 2]] has its ones at [(0, 1)], [(1, 0)], [(2, 2)]. *)
Example permutation_matrix_102 :
  permutation_matrix_from_vector (H := Z_scalar) [1; 0; 2]%nat
  = Returns [[0; 1; 0]; [1; 0; 0]; [0; 0; 1]].
Proof. reflexivity. Qed.


(** * Further properties of the estimators *)

(** ** How many rounds the AAC loops run *)

Lemma stops_at_bounds {St} (signal : St → Q) (eps : Q) (max_iter : Z)
    (trace : nat → St) (n : nat) :
  stops_at signal eps max_iter trace n →
  Z.of_nat n <= Z.max 0 max_iter
  ∧ ((eps < signal (trace O))%Q → 1 <= max_iter → 1 <= Z.of_nat n).
Proof.
  intros [Hexit Hbefore]. split.
  - destruct (Nat.le_gt_cases n (Z.to_nat max_iter)) as [Hle | Hgt]; [lia|].
    destruct (Hbefore (Z.to_nat max_iter) Hgt) as [_ Hc]. lia.
  - intros H0 Hmax. destruct n as [|n]; [|lia].
    destruct Hexit as [He | Hc]; [lra | lia].
Qed.

Lemma stops_at_first {St} (signal : St → Q) (eps : Q) (max_iter : Z)
    (trace : nat → St) (n k : nat) :
  stops_at signal eps max_iter trace n →
  Z.of_nat k <= max_iter →
  (signal (trace k) <= eps)%Q →
  (∀ j, (j < k)%nat → (eps < signal (trace j))%Q) →
  n = k.
Proof.
  intros [Hexit Hbefore] Hk Hconv Hsig.
  destruct (Nat.lt_trichotomy n k) as [Hlt | [Heq | Hgt]].
  - specialize (Hsig n Hlt). destruct Hexit as [He | Hc]; [lra | lia].
  - exact Heq.
  - destruct (Hbefore k Hgt) as [He _]. lra.
Qed.

Lemma entry_signal_above (eps : Q) : (eps < eps + 1)%Q.
Proof. lra. Qed.



(** After a round, the reference is the mean of the aligned samples. *)
Lemma frechet_round_invariant {P} (self : AACFrechet.t P) (n : nat)
    (s : AACFrechet.locals P) :
  AACFrechet.previous_estimate (iterate (AACFrechet.loop_body self) (S n) s)
  = AACFrechet.mean_estimator self
      (AACFrechet.aligned_X (iterate (AACFrechet.loop_body self) (S n) s)).
Proof. rewrite iterate_succ. reflexivity. Qed.



(** X3: without [init_point], [fit] on no samples raises the [IndexError] of
    [random.choice] before anything is logged, for the three estimators
    ([AACRegression] draws from the targets). *)
Theorem aac_fit_empty_input_raises :
  (∀ P (self : AACFrechet.t P) r,
     AACFrechet.init_point self = None →
     AACFrechet.fit self r [] = ([], Raises IndexError))
  ∧ (∀ P G S (self : AACGPC.t P G S) r,
     AACGPC.init_point self = None →
     AACGPC.fit self r [] = ([], Raises IndexError))
  ∧ (∀ F P R (self : AACRegression.t F P R) r X,
     AACRegression.init_point self = None →
     AACRegression.fit self r X [] = ([], Raises IndexError)).
Proof.
  split; [|split].
  - intros P self r Hnone.
    unfold AACFrechet.fit, AACFrechet.initial_reference. rewrite Hnone.
    unfold random_choice. rewrite lookup_nil. reflexivity.
  - intros P G S self r Hnone.
    unfold AACGPC.fit, AACGPC.initial_reference. rewrite Hnone.
    unfold random_choice. rewrite lookup_nil. reflexivity.
  - intros F P R self r X Hnone.
    unfold AACRegression.fit, AACRegression.initial_reference. rewrite Hnone.
    unfold random_choice. rewrite lookup_nil. reflexivity.
Qed.

Lemma aac_fit_empty_input_raises_witness :
  AACFrechet.fit
    (AACFrechet.__init__ line_metric (1 # 1000000)%Q 20 None midrange) 7%nat []
  = ([], Raises IndexError).
Proof.
  apply (proj1 aac_fit_empty_input_raises Q
           (AACFrechet.__init__ line_metric (1 # 1000000)%Q 20 None midrange)
           7%nat).
  reflexivity.
Defined.

Lemma warning_log_below {P} (iteration max_iter : Z) :
  iteration < max_iter → warning_log (P := P) iteration max_iter = [].
Proof.
  intros Hlt. unfold warning_log.
  destruct (Z.eqb_spec iteration max_iter); [lia | reflexivity].
Qed.


(** The fit of [settled_frechet] with room to spare: [max_iter = 20]. *)
Definition roomy_frechet : AACFrechet.t Q :=
  AACFrechet.__init__ line_metric (1 # 1000000)%Q 20 (Some 0%Q) midrange.


(** X5: the solver that [AACGPC.fit] leaves in the estimator was fitted on
    the samples as last aligned, and so was the regressor that
    [AACRegression.fit] leaves. *)
Theorem aac_solver_fitted_on_last_alignment :
  (∀ P G S (self : AACGPC.t P G S) r X,
     X ≠ [] →
     ∃ x st self',
       AACGPC.initial_reference self r X = ret x
       ∧ AACGPC.run_loop self x X = ret st
       ∧ result_of (AACGPC.fit self r X) = Returns self'
       ∧ AACGPC.fitted self'
         = Some (AACGPC.pca_fit (AACGPC.pca_solver self) (AACGPC.aligned_X st))
       ∧ AACGPC.previous_expl st
         = AACGPC.explained_variance_ratio_0 (AACGPC.pca_solver self)
             (AACGPC.pca_fit (AACGPC.pca_solver self) (AACGPC.aligned_X st)))
  ∧ (∀ F P R (self : AACRegression.t F P R) r X y,
     y ≠ [] →
     ∃ y_ st self',
       AACRegression.initial_reference self r y = ret y_
       ∧ AACRegression.run_loop self X y_ y = ret st
       ∧ result_of (AACRegression.fit self r X y) = Returns self'
       ∧ AACRegression.fitted self'
         = Some (AACRegression.regressor_fit (AACRegression.regressor self) X
                   (AACRegression.aligned_y st))
       ∧ AACRegression.previous_y_pred st
         = AACRegression.regressor_predict (AACRegression.regressor self)
             (AACRegression.regressor_fit (AACRegression.regressor self) X
                (AACRegression.aligned_y st)) X).
Proof.
  split.
  - intros P G S self r X Hne.
    destruct (gpc_fit self r X Hne) as (x & st & Hi & Hrun & Hfit).
    destruct (gpc_run_loop self x X) as (n & Hrun' & _).
    rewrite Hrun' in Hrun. injection Hrun as <-.
    exists x. eexists. eexists. split; [exact Hi|]. split; [exact Hrun'|].
    rewrite Hfit, gpc_finish.
    split; [reflexivity|].
    destruct n as [|n]; [split; reflexivity|].
    rewrite iterate_succ. split; reflexivity.
  - intros F P R self r X y Hne.
    destruct (regression_fit self r X y Hne) as (y_ & st & Hi & Hrun & Hfit).
    destruct (regression_run_loop self X y_ y) as (n & Hrun' & _).
    rewrite Hrun' in Hrun. injection Hrun as <-.
    exists y_. eexists. eexists. split; [exact Hi|]. split; [exact Hrun'|].
    rewrite Hfit, regression_finish.
    split; [reflexivity|].
    destruct n as [|n]; [split; reflexivity|].
    rewrite iterate_succ. split; reflexivity.
Qed.

Lemma aac_solver_fitted_on_last_alignment_witness :
  ∃ x st self',
    AACGPC.initial_reference falling_gpc 0%nat [(9 # 10)%Q] = ret x
    ∧ AACGPC.run_loop falling_gpc x [(9 # 10)%Q] = ret st
    ∧ result_of (AACGPC.fit falling_gpc 0%nat [(9 # 10)%Q]) = Returns self'
    ∧ AACGPC.fitted self'
      = Some (AACGPC.pca_fit (AACGPC.pca_solver falling_gpc)
                (AACGPC.aligned_X st))
    ∧ AACGPC.previous_expl st
      = AACGPC.explained_variance_ratio_0 (AACGPC.pca_solver falling_gpc)
          (AACGPC.pca_fit (AACGPC.pca_solver falling_gpc) (AACGPC.aligned_X st)).
Proof.
  apply (proj1 aac_solver_fitted_on_last_alignment Q unit (list Q) falling_gpc
           0%nat [(9 # 10)%Q]).
  discriminate.
Defined.

(** ** The rounds of the Weiszfeld algorithm *)

(** The median that [single_iteration] returns. *)
Definition single_iteration_value {P T} (self : WeiszfeldAlgorithm.t P T)
    (X : list P) (weights : list Q) (lr : Q) (current_median : P) : P :=
  match result_of
          (WeiszfeldAlgorithm.single_iteration self current_median X weights lr)
  with
  | Returns p => p
  | _ => current_median
  end.

(** The weights [fit] works with. *)
Definition weights_or_equal {P} (X : list P) (weights : option (list Q))
    : list Q :=
  match weights with
  | None => WeiszfeldAlgorithm.equal_weights (length X)
  | Some w => w
  end.

(** The rounds at which a line was printed. *)
Definition printed_iters {P} (log : list (event P)) : list Z :=
  omap (λ e, match e with Printed iter _ => Some iter | _ => None end) log.

Lemma single_iteration_outcome {P T} (self : WeiszfeldAlgorithm.t P T)
    (current_median : P) (X : list P) (weights : list Q) (lr : Q) :
  ∃ l,
    WeiszfeldAlgorithm.single_iteration self current_median X weights lr
    = (l, Returns (single_iteration_value self X weights lr current_median))
    ∧ printed_iters l = [].
Proof.
  unfold single_iteration_value, WeiszfeldAlgorithm.single_iteration.
  destruct (Qeq_bool _ 0); eexists; split; reflexivity.
Qed.

Lemma range_nil (lo hi : Z) : hi <= lo → range lo hi = [].
Proof.
  intros Hle. unfold range. replace (Z.to_nat (hi - lo)) with O by lia.
  reflexivity.
Qed.

Lemma length_range (lo hi : Z) : length (range lo hi) = Z.to_nat (hi - lo).
Proof. unfold range. rewrite length_map, length_seq. reflexivity. Qed.

Lemma for_each_returns {P A S} (xs : list A) (body : A → S → M P S)
    (step : S → S) :
  (∀ x s, ∃ l, body x s = (l, Returns (step s))) →
  ∀ s, ∃ l, for_each xs body s = (l, Returns (iterate step (length xs) s)).
Proof.
  intros Hbody. induction xs as [|x xs IH]; intros s; simpl.
  - eexists. reflexivity.
  - destruct (Hbody x s) as [l Hl]. destruct (IH (step s)) as [l' Hl'].
    rewrite Hl. unfold bind. rewrite Hl'. eexists. reflexivity.
Qed.

(** X6: with [max_iter <= 0] no round is run: [fit] returns the initial
    median, [init] or the first sample, and leaves no event; the unbound
    [verbose] is never read. *)
Theorem weiszfeld_fit_without_rounds {P T} (self : WeiszfeldAlgorithm.t P T)
    (X : list P) (weights : option (list Q)) (p : P) :
  WeiszfeldAlgorithm.max_iter self <= 0 →
  WeiszfeldAlgorithm.initial_median self X = ret p →
  ∃ self',
    WeiszfeldAlgorithm.fit self X weights = ([], Returns self')
    ∧ WeiszfeldAlgorithm.estimate_ self' = Some p.
Proof.
  intros Hmax Hinit. unfold WeiszfeldAlgorithm.fit, WeiszfeldAlgorithm.run_loop.
  rewrite Hinit, bind_ret_l, range_nil by lia. simpl for_each.
  rewrite bind_ret_l. eexists. split; reflexivity.
Qed.

Lemma weiszfeld_fit_without_rounds_witness :
  ∃ self',
    WeiszfeldAlgorithm.fit
      (WeiszfeldAlgorithm.__init__ line line_backend 0 1 None None)
      [5%Q; 1%Q] None
    = ([], Returns self')
    ∧ WeiszfeldAlgorithm.estimate_ self' = Some 5%Q.
Proof.
  apply (weiszfeld_fit_without_rounds
           (WeiszfeldAlgorithm.__init__ line line_backend 0 1 None None)
           [5%Q; 1%Q] None 5%Q).
  - simpl. lia.
  - reflexivity.
Defined.

(** X7: without [init], [fit] on no samples raises the [IndexError] of
    [X[0]], whatever [max_iter] is. *)
Theorem weiszfeld_fit_empty_input_raises {P T} (self : WeiszfeldAlgorithm.t P T)
    (weights : option (list Q)) :
  WeiszfeldAlgorithm.init self = None →
  WeiszfeldAlgorithm.fit self [] weights = ([], Raises IndexError).
Proof.
  intros Hnone. unfold WeiszfeldAlgorithm.fit, WeiszfeldAlgorithm.run_loop,
    WeiszfeldAlgorithm.initial_median.
  rewrite Hnone. reflexivity.
Qed.

Lemma weiszfeld_fit_empty_input_raises_witness :
  WeiszfeldAlgorithm.fit
    (WeiszfeldAlgorithm.__init__ line line_backend 100 1 None None) [] None
  = ([], Raises IndexError).
Proof.
  apply (weiszfeld_fit_empty_input_raises
           (WeiszfeldAlgorithm.__init__ line line_backend 100 1 None None) None).
  reflexivity.
Defined.

(** X8: with [verbose] bound to [None], [fit] has no early exit: it returns
    the initial median after exactly [max_iter] applications of
    [single_iteration]. *)
Theorem weiszfeld_fit_runs_max_iter_rounds {P T}
    (self : WeiszfeldAlgorithm.t P T) (X : list P) (weights : option (list Q))
    (p0 : P) :
  WeiszfeldAlgorithm.verbose self = Attribute None →
  WeiszfeldAlgorithm.initial_median self X = ret p0 →
  ∃ log self',
    WeiszfeldAlgorithm.fit self X weights = (log, Returns self')
    ∧ WeiszfeldAlgorithm.estimate_ self'
      = Some (iterate
                (single_iteration_value self X (weights_or_equal X weights)
                   (WeiszfeldAlgorithm.lr self))
                (Z.to_nat (WeiszfeldAlgorithm.max_iter self)) p0).
Proof.
  intros Hv Hinit.
  destruct (for_each_returns
              (range 1 (WeiszfeldAlgorithm.max_iter self + 1))
              (WeiszfeldAlgorithm.fit_body self X (weights_or_equal X weights))
              (single_iteration_value self X (weights_or_equal X weights)
                 (WeiszfeldAlgorithm.lr self))) with (s := p0) as [l Hl].
  { intros iter cm. unfold WeiszfeldAlgorithm.fit_body.
    destruct (single_iteration_outcome self cm X (weights_or_equal X weights)
                (WeiszfeldAlgorithm.lr self)) as (l1 & Hs & _).
    rewrite Hs. unfold WeiszfeldAlgorithm.get_verbose. rewrite Hv.
    eexists. reflexivity. }
  rewrite length_range in Hl.
  replace (Z.to_nat (WeiszfeldAlgorithm.max_iter self + 1 - 1))
    with (Z.to_nat (WeiszfeldAlgorithm.max_iter self)) in Hl by lia.
  unfold WeiszfeldAlgorithm.fit, WeiszfeldAlgorithm.run_loop.
  rewrite Hinit, bind_ret_l. fold (weights_or_equal X weights).
  rewrite Hl. eexists. eexists. split; reflexivity.
Qed.

(** The estimator of the line with [verbose] bound to [None]: half steps
    towards the sample, three rounds. *)
Definition half_step_weiszfeld : WeiszfeldAlgorithm.t Q Q :=
  {| WeiszfeldAlgorithm.metric := line;
     WeiszfeldAlgorithm.gs := line_backend;
     WeiszfeldAlgorithm.max_iter := 3;
     WeiszfeldAlgorithm.lr := (1 # 2)%Q;
     WeiszfeldAlgorithm.init := Some 0%Q;
     WeiszfeldAlgorithm.print_every := None;
     WeiszfeldAlgorithm.estimate_ := None;
     WeiszfeldAlgorithm.verbose := Attribute None |}.

Lemma weiszfeld_fit_runs_max_iter_rounds_witness :
  ∃ log self',
    WeiszfeldAlgorithm.fit half_step_weiszfeld [4%Q] None = (log, Returns self')
    ∧ WeiszfeldAlgorithm.estimate_ self'
      = Some (iterate
                (single_iteration_value half_step_weiszfeld [4%Q]
                   (weights_or_equal [4%Q] None) (1 # 2)%Q)
                3 0%Q).
Proof.
  apply (weiszfeld_fit_runs_max_iter_rounds half_step_weiszfeld [4%Q] None 0%Q).
  - reflexivity.
  - reflexivity.
Defined.

(** X9: with [verbose] bound to something other than [None], the first round
    of [fit] evaluates [(iter + 1) % self.print_every]: it raises a
    [TypeError] when [print_every] is [None], its default, and a
    [ZeroDivisionError] when [print_every] is [0]. *)
Theorem weiszfeld_fit_print_every_errors {P T} (self : WeiszfeldAlgorithm.t P T)
    (X : list P) (weights : option (list Q)) (p0 : P) (v : Z) :
  WeiszfeldAlgorithm.verbose self = Attribute (Some v) →
  1 <= WeiszfeldAlgorithm.max_iter self →
  WeiszfeldAlgorithm.initial_median self X = ret p0 →
  (WeiszfeldAlgorithm.print_every self = None →
   result_of (WeiszfeldAlgorithm.fit self X weights) = Raises TypeError)
  ∧ (WeiszfeldAlgorithm.print_every self = Some 0 →
     result_of (WeiszfeldAlgorithm.fit self X weights)
     = Raises ZeroDivisionError).
Proof.
  intros Hv Hmax Hinit.
  assert (Hfirst : ∀ e,
            WeiszfeldAlgorithm.print_due self 1 = raise (P := P) e →
            result_of (WeiszfeldAlgorithm.fit self X weights) = Raises e).
  { intros e Hdue.
    unfold WeiszfeldAlgorithm.fit, WeiszfeldAlgorithm.run_loop.
    rewrite Hinit, bind_ret_l, range_cons by lia. simpl for_each.
    unfold WeiszfeldAlgorithm.fit_body at 1.
    fold (weights_or_equal X weights).
    destruct (single_iteration_outcome self p0 X (weights_or_equal X weights)
                (WeiszfeldAlgorithm.lr self)) as (l1 & Hs & _).
    rewrite Hs. unfold WeiszfeldAlgorithm.get_verbose. rewrite Hv.
    unfold bind at 3. unfold ret at 1. unfold bind at 3. rewrite Hdue.
    reflexivity. }
  split; intros Hpe; apply Hfirst; unfold WeiszfeldAlgorithm.print_due;
    rewrite Hpe; reflexivity.
Qed.

Lemma weiszfeld_fit_print_every_errors_witness :
  result_of
    (WeiszfeldAlgorithm.fit
       {| WeiszfeldAlgorithm.metric := line;
          WeiszfeldAlgorithm.gs := line_backend;
          WeiszfeldAlgorithm.max_iter := 5;
          WeiszfeldAlgorithm.lr := 1;
          WeiszfeldAlgorithm.init := None;
          WeiszfeldAlgorithm.print_every := None;
          WeiszfeldAlgorithm.estimate_ := None;
          WeiszfeldAlgorithm.verbose := Attribute (Some 1) |}
       [1%Q; 3%Q] None)
  = Raises TypeError.
Proof.
  apply (weiszfeld_fit_print_every_errors
           {| WeiszfeldAlgorithm.metric := line;
              WeiszfeldAlgorithm.gs := line_backend;
              WeiszfeldAlgorithm.max_iter := 5;
              WeiszfeldAlgorithm.lr := 1;
              WeiszfeldAlgorithm.init := None;
              WeiszfeldAlgorithm.print_every := None;
              WeiszfeldAlgorithm.estimate_ := None;
              WeiszfeldAlgorithm.verbose := Attribute (Some 1) |}
           [1%Q; 3%Q] None 1%Q 1).
  - reflexivity.
  - simpl. lia.
  - reflexivity.
  - reflexivity.
Defined.

Lemma printed_iters_app {P} (l l' : list (event P)) :
  printed_iters (l ++ l') = printed_iters l ++ printed_iters l'.
Proof. unfold printed_iters. apply omap_app. Qed.

Lemma for_each_printed {P S} (xs : list Z) (body : Z → S → M P S)
    (f : Z → bool) :
  (∀ x s, ∃ l s', body x s = (l, Returns s')
                  ∧ printed_iters l = if f x then [x] else []) →
  ∀ s, ∃ l s', for_each xs body s = (l, Returns s')
               ∧ printed_iters l = List.filter f xs.
Proof.
  intros Hbody. induction xs as [|x xs IH]; intros s; simpl.
  - eexists _, _. split; reflexivity.
  - destruct (Hbody x s) as (l & s' & Hl & Hp).
    destruct (IH s') as (l' & s'' & Hl' & Hp').
    rewrite Hl. unfold bind. rewrite Hl'.
    eexists _, _. split; [reflexivity|].
    rewrite printed_iters_app, Hp, Hp'. destruct (f x); reflexivity.
Qed.

(** X10: with [verbose] bound to something other than [None] and a non-zero
    [print_every], [fit] returns and prints at exactly the rounds [iter] of
    [1 .. max_iter] for which [iter + 1] is a multiple of [print_every]. *)
Theorem weiszfeld_fit_print_schedule {P T} (self : WeiszfeldAlgorithm.t P T)
    (X : list P) (weights : option (list Q)) (p0 : P) (v k : Z) :
  WeiszfeldAlgorithm.verbose self = Attribute (Some v) →
  WeiszfeldAlgorithm.print_every self = Some k →
  k ≠ 0 →
  WeiszfeldAlgorithm.initial_median self X = ret p0 →
  ∃ log self',
    WeiszfeldAlgorithm.fit self X weights = (log, Returns self')
    ∧ printed_iters log
      = List.filter (λ iter, (iter + 1) mod k =? 0)
          (range 1 (WeiszfeldAlgorithm.max_iter self + 1)).
Proof.
  intros Hv Hpe Hk Hinit.
  destruct (for_each_printed
              (range 1 (WeiszfeldAlgorithm.max_iter self + 1))
              (WeiszfeldAlgorithm.fit_body self X (weights_or_equal X weights))
              (λ iter, (iter + 1) mod k =? 0)) with (s := p0)
    as (l & s' & Hl & Hp).
  { intros iter cm. unfold WeiszfeldAlgorithm.fit_body.
    destruct (single_iteration_outcome self cm X (weights_or_equal X weights)
                (WeiszfeldAlgorithm.lr self)) as (l1 & Hs & Hp1).
    rewrite Hs. unfold WeiszfeldAlgorithm.get_verbose,
      WeiszfeldAlgorithm.print_due.
    rewrite Hv, Hpe.
    assert (Hdue : match k with
                   | 0 => raise (P := P) ZeroDivisionError
                   | _ => ret ((iter + 1) mod k =? 0)
                   end = ret ((iter + 1) mod k =? 0))
      by (destruct k; [congruence | reflexivity ..]).
    rewrite Hdue. unfold bind, ret, emit.
    destruct ((iter + 1) mod k =? 0); eexists _, _;
      (split; [reflexivity|]);
      rewrite !printed_iters_app, Hp1; reflexivity. }
  unfold WeiszfeldAlgorithm.fit, WeiszfeldAlgorithm.run_loop.
  rewrite Hinit, bind_ret_l. fold (weights_or_equal X weights).
  rewrite Hl. unfold bind, ret. eexists _, _. split; [reflexivity|].
  rewrite app_nil_r. exact Hp.
Qed.

Lemma weiszfeld_fit_print_schedule_witness :
  ∃ log self',
    WeiszfeldAlgorithm.fit
      {| WeiszfeldAlgorithm.metric := line;
         WeiszfeldAlgorithm.gs := line_backend;
         WeiszfeldAlgorithm.max_iter := 6;
         WeiszfeldAlgorithm.lr := 1;
         WeiszfeldAlgorithm.init := None;
         WeiszfeldAlgorithm.print_every := Some 3;
         WeiszfeldAlgorithm.estimate_ := None;
         WeiszfeldAlgorithm.verbose := Attribute (Some 1) |}
      [2%Q; 2%Q] None
    = (log, Returns self')
    ∧ printed_iters log = [2; 5].
Proof.
  apply (weiszfeld_fit_print_schedule
           {| WeiszfeldAlgorithm.metric := line;
              WeiszfeldAlgorithm.gs := line_backend;
              WeiszfeldAlgorithm.max_iter := 6;
              WeiszfeldAlgorithm.lr := 1;
              WeiszfeldAlgorithm.init := None;
              WeiszfeldAlgorithm.print_every := Some 3;
              WeiszfeldAlgorithm.estimate_ := None;
              WeiszfeldAlgorithm.verbose := Attribute (Some 1) |}
           [2%Q; 2%Q] None (2 # 1)%Q 1 3).
  - reflexivity.
  - reflexivity.
  - discriminate.
  - reflexivity.
Defined.

(** The estimator of the line with [verbose] bound to [None] and no [init]. *)
Definition half_step_weiszfeld_at_sample : WeiszfeldAlgorithm.t Q Q :=
  {| WeiszfeldAlgorithm.metric := line;
     WeiszfeldAlgorithm.gs := line_backend;
     WeiszfeldAlgorithm.max_iter := 3;
     WeiszfeldAlgorithm.lr := (1 # 2)%Q;
     WeiszfeldAlgorithm.init := None;
     WeiszfeldAlgorithm.print_every := None;
     WeiszfeldAlgorithm.estimate_ := None;
     WeiszfeldAlgorithm.verbose := Attribute None |}.

Lemma gs_sum_replicate (n : nat) (q : Q) :
  (gs_sum (replicate n q) == inject_Z (Z.of_nat n) * q)%Q.
Proof.
  induction n as [|n IH].
  - change (0 == inject_Z 0 * q)%Q. unfold inject_Z. ring.
  - change (gs_sum (replicate (S n) q)) with (q + gs_sum (replicate n q))%Q.
    rewrite IH, Nat2Z.inj_succ. unfold Z.succ. rewrite inject_Z_plus.
    change (inject_Z 1) with 1%Q. ring.
Qed.



(** * Further properties of the permutation actions *)

(** ** [inverse_element] and its bounds *)

Lemma assign_all_in_range (pairs : list (nat * nat)) (acc : list nat) :
  Forall (λ p, (p.2 < length acc)%nat) pairs →
  ∃ h, _PermutationActionMixins.assign_all pairs acc = Returns h
       ∧ length h = length acc.
Proof.
  revert acc. induction pairs as [|[val idx] rest IH]; intros acc Hall; simpl.
  - eauto.
  - apply Forall_cons in Hall as [Hidx Hall]. simpl in Hidx.
    rewrite decide_True by exact Hidx.
    destruct (IH (<[idx:=val]> acc)) as (h & Hrun & Hlen).
    { rewrite length_insert. exact Hall. }
    exists h. split; [exact Hrun|]. rewrite Hlen. apply length_insert.
Qed.

Lemma assign_all_out_of_range (pairs : list (nat * nat)) (acc : list nat) :
  Exists (λ p, (length acc ≤ p.2)%nat) pairs →
  _PermutationActionMixins.assign_all pairs acc = Raises IndexError.
Proof.
  revert acc. induction pairs as [|[val idx] rest IH]; intros acc Hex; simpl.
  - apply Exists_nil in Hex. contradiction.
  - destruct (decide (idx < length acc)%nat) as [Hlt | Hge]; [|reflexivity].
    apply Exists_cons in Hex as [Hhere | Hlater]; [simpl in Hhere; lia|].
    apply IH. rewrite length_insert. exact Hlater.
Qed.

Lemma enumerate_snd {A} (l : list A) : (enumerate l).*2 = l.
Proof. unfold enumerate. apply snd_zip. rewrite length_seq. lia. Qed.



(** X14: on a batch of permutation vectors of one length, [inverse_element]
    inverts every row on its own, and applied twice gives the batch back. *)
Theorem inverse_element_stack_involutive (n : nat) (gs : list (list nat)) :
  Forall (λ g, g ≡ₚ seq 0 n) gs →
  ∃ hs,
    _PermutationActionMixins.inverse_element (Stack gs) = Returns (Stack hs)
    ∧ Forall2 inverse_of gs hs
    ∧ _PermutationActionMixins.inverse_element (Stack hs) = Returns (Stack gs).
Proof.
  intros Hall.
  assert (Hrows : ∃ hs,
            _PermutationActionMixins.stack_map
              _PermutationActionMixins._inverse_element_single gs = Returns hs
            ∧ Forall2 inverse_of gs hs
            ∧ _PermutationActionMixins.stack_map
                _PermutationActionMixins._inverse_element_single hs
              = Returns gs).
  { induction Hall as [|g gs Hg _ IH].
    - exists []. repeat split; constructor.
    - destruct IH as (hs & Hrun & Hinv & Hback).
      destruct (inverse_element_involutive n g Hg)
        as (h & Hh & Hh' & _ & Hgh).
      exists (h :: hs). simpl. rewrite Hh, Hrun, Hh', Hback.
      repeat split. constructor; assumption. }
  destruct Hrows as (hs & Hrun & Hinv & Hback).
  exists hs. unfold _PermutationActionMixins.inverse_element.
  rewrite Hrun, Hback. repeat split. exact Hinv.
Qed.

Lemma inverse_element_stack_involutive_witness :
  ∃ hs,
    _PermutationActionMixins.inverse_element
      (Stack [[1; 2; 0]; [0; 2; 1]]%nat) = Returns (Stack hs)
    ∧ Forall2 inverse_of [[1; 2; 0]; [0; 2; 1]]%nat hs
    ∧ _PermutationActionMixins.inverse_element (Stack hs)
      = Returns (Stack [[1; 2; 0]; [0; 2; 1]]%nat).
Proof.
  apply (inverse_element_stack_involutive 3 [[1; 2; 0]; [0; 2; 1]]%nat).
  apply Forall_cons. split.
  - symmetry. exact (Permutation_cons_append [1; 2]%nat 0%nat).
  - apply Forall_cons. split; [|apply Forall_nil; exact I].
    exact (perm_skip 0%nat (perm_swap 1%nat 2%nat [])).
Defined.

(** ** What the permutation matrix and the two actions compute *)

(** X15: for a vector [g] whose entries are below its length [n],
    [permutation_matrix_from_vector] returns an [n] by [n] matrix whose entry
    [(i, j)] is one when [g[i] = j] and zero otherwise. *)
Theorem permutation_matrix_entries {A} (SA : Scalar A) (g : list nat) :
  Forall (λ x, (x < length g)%nat) g →
  ∃ perm_mat,
    permutation_matrix_from_vector g = Returns perm_mat
    ∧ has_shape (length g) (length g) perm_mat
    ∧ ∀ i j x, g !! i = Some x →
        nth j (nth i perm_mat []) s_zero
        = if decide (j = x) then s_one else s_zero.
Proof.
  intros Hlt. exists (map (one_hot (length g)) g).
  split; [apply permutation_matrix_one_hot; [reflexivity | exact Hlt]|].
  split; [apply has_shape_one_hot; reflexivity|].
  intros i j x Hx.
  rewrite (nth_map_lt (one_hot (length g)) g i [] O)
    by (eapply lookup_lt_Some; exact Hx).
  rewrite (nth_lookup_Some _ _ _ _ Hx).
  apply nth_one_hot. rewrite Forall_forall in Hlt. apply Hlt.
  apply list_elem_of_lookup. eauto.
Qed.

Lemma permutation_matrix_entries_witness :
  ∃ perm_mat,
    permutation_matrix_from_vector (H := Z_scalar) [1; 0; 2]%nat
    = Returns perm_mat
    ∧ has_shape 3 3 perm_mat
    ∧ ∀ i j x, [1; 0; 2]%nat !! i = Some x →
        nth j (nth i perm_mat []) 0 = if decide (j = x) then 1 else 0.
Proof.
  apply (permutation_matrix_entries Z_scalar [1; 0; 2]%nat).
  repeat constructor.
Defined.

(** X16: the transpose of the matrix of a permutation vector is the matrix
    of its [inverse_element]. *)
Theorem permutation_matrix_transpose_is_inverse {A} (SA : Scalar A) (n : nat)
    (g : list nat) :
  g ≡ₚ seq 0 n →
  ∃ h perm_mat,
    _PermutationActionMixins._inverse_element_single g = Returns h
    ∧ permutation_matrix_from_vector g = Returns perm_mat
    ∧ permutation_matrix_from_vector h = Returns (transpose perm_mat).
Proof.
  intros Hperm.
  destruct (inverse_element_involutive n g Hperm) as (h & Hrun & _ & Hh & Hinv).
  destruct (permutation_in_range n g Hperm) as [Hg Hgn].
  destruct (permutation_in_range n h Hh) as [Hhl Hhn].
  exists h, (map (one_hot n) g). split; [exact Hrun|].
  split; [apply permutation_matrix_one_hot; assumption|].
  rewrite (transpose_permutation_matrix SA n g h Hperm Hinv).
  apply permutation_matrix_one_hot; assumption.
Qed.

Lemma permutation_matrix_transpose_is_inverse_witness :
  ∃ h perm_mat,
    _PermutationActionMixins._inverse_element_single [1; 2; 0]%nat = Returns h
    ∧ permutation_matrix_from_vector (H := Z_scalar) [1; 2; 0]%nat
      = Returns perm_mat
    ∧ permutation_matrix_from_vector (H := Z_scalar) h
      = Returns (transpose (H := Z_scalar) perm_mat).
Proof.
  apply (permutation_matrix_transpose_is_inverse Z_scalar 3 [1; 2; 0]%nat).
  symmetry. exact (Permutation_cons_append [1; 2]%nat 0%nat).
Defined.





(** ** How the actions compose *)

Lemma take_at_compose {B} (d : B) (g h : list nat) (l : list B) :
  Forall (λ x, (x < length g)%nat) h →
  take_at d h (take_at d g l) = take_at d (take_at O h g) l.
Proof.
  intros Hh. unfold take_at. rewrite map_map. apply map_ext_Forall.
  eapply Forall_impl; [exact Hh|]. intros x Hx. simpl in Hx. simpl.
  apply (nth_map_lt (λ gi, nth gi l d) g x d O). exact Hx.
Qed.

Lemma take_at_in_range (n : nat) (g h : list nat) :
  length g = n → Forall (λ x, (x < n)%nat) g → Forall (λ x, (x < n)%nat) h →
  Forall (λ x, (x < n)%nat) (take_at O h g).
Proof.
  intros Hlen Hg Hh. unfold take_at. apply List.Forall_forall.
  intros y Hy. apply in_map_iff in Hy as (x & <- & Hx).
  rewrite List.Forall_forall in Hg, Hh. apply Hg, nth_In.
  rewrite Hlen. apply Hh. exact Hx.
Qed.

Lemma take_at_seq {B} (d : B) (n : nat) (l : list B) :
  length l = n → take_at d (seq 0 n) l = l.
Proof. intros Hlen. unfold take_at. apply map_nth_seq. exact Hlen. Qed.



Lemma inverse_of_permutation (n : nat) (k k' : list nat) :
  length k = n → inverse_of k k' → k ≡ₚ seq 0 n.
Proof.
  intros Hlen [Hlen' Hinv]. apply NoDup_Permutation; [|apply NoDup_seq|].
  - apply NoDup_alt. intros i j x Hi Hj. apply Hinv in Hi, Hj. congruence.
  - intros x. rewrite elem_of_seq, list_elem_of_lookup. split.
    + intros [i Hi]. apply Hinv, lookup_lt_Some in Hi. lia.
    + intros [_ Hx].
      destruct (lookup_lt_is_Some_2 k' x) as [i Hi]; [lia|].
      exists i. apply Hinv. exact Hi.
Qed.

Lemma lookup_take_at (g h : list nat) (i j : nat) :
  Forall (λ x, (x < length h)%nat) g →
  take_at O g h !! i = Some j ↔ ∃ a, g !! i = Some a ∧ h !! a = Some j.
Proof.
  intros Hg. unfold take_at. change (map (λ gi, nth gi h O) g)
    with ((λ gi, nth gi h O) <$> g).
  rewrite list_lookup_fmap. destruct (g !! i) as [a|] eqn:Ea; simpl.
  - assert (Ha : (a < length h)%nat).
    { rewrite Forall_forall in Hg. apply Hg, list_elem_of_lookup. eauto. }
    destruct (lookup_lt_is_Some_2 h a Ha) as [y Hy].
    rewrite (nth_lookup_Some _ _ _ _ Hy). split.
    + intros [= <-]. eauto.
    + intros (a' & [= <-] & Hj). congruence.
  - split; [discriminate | intros (a & Ha & _); discriminate].
Qed.

Lemma inverse_of_compose (n : nat) (g g' h h' : list nat) :
  g ≡ₚ seq 0 n → h ≡ₚ seq 0 n → inverse_of g g' → inverse_of h h' →
  inverse_of (take_at O g h) (take_at O h' g').
Proof.
  intros Hg Hh Hgg Hhh.
  destruct (inverse_of_sym n g g' Hg Hgg) as [Hg' _].
  destruct (inverse_of_sym n h h' Hh Hhh) as [Hh' _].
  destruct (permutation_in_range n g Hg) as [Lg Rg].
  destruct (permutation_in_range n h Hh) as [Lh Rh].
  destruct (permutation_in_range n g' Hg') as [Lg' Rg'].
  destruct (permutation_in_range n h' Hh') as [Lh' Rh'].
  destruct Hgg as [_ Hgg]. destruct Hhh as [_ Hhh].
  split; [unfold take_at; rewrite !length_map; congruence|].
  intros i j.
  rewrite (lookup_take_at g h) by (rewrite Lh; exact Rg).
  rewrite (lookup_take_at h' g') by (rewrite Lg'; exact Rh').
  split.
  - intros (a & Ha & Hj). exists a. split; [apply Hhh | apply Hgg]; assumption.
  - intros (a & Ha & Hi). exists a. split; [apply Hgg | apply Hhh]; assumption.
Qed.



Lemma inverse_of_identity (n : nat) : inverse_of (seq 0 n) (seq 0 n).
Proof.
  split; [reflexivity|]. intros i j. rewrite !lookup_seq. lia.
Qed.



(** * Further properties of the flat metric *)

Lemma wrap64_add_assoc (a b c : Z) :
  wrap64 (wrap64 (a + b) + c) = wrap64 (a + wrap64 (b + c)).
Proof.
  unfold wrap64. f_equal.
  replace ((a + b + 2 ^ 63) mod 2 ^ 64 - 2 ^ 63 + c + 2 ^ 63)
    with ((a + b + 2 ^ 63) mod 2 ^ 64 + c) by lia.
  replace (a + ((b + c + 2 ^ 63) mod 2 ^ 64 - 2 ^ 63) + 2 ^ 63)
    with (a + (b + c + 2 ^ 63) mod 2 ^ 64) by lia.
  rewrite Zplus_mod_idemp_l, Zplus_mod_idemp_r. f_equal. lia.
Qed.

Lemma zip_with_sub_self (p : list Z) :
  zip_with (λ a b, wrap64 (a - b)) p p = replicate (length p) 0.
Proof.
  induction p as [|x p IH]; simpl; [reflexivity|].
  rewrite IH, Z.sub_diag. reflexivity.
Qed.

Lemma zip_with_add_zeros (p : list Z) :
  Forall in_int64 p →
  zip_with (λ a b, wrap64 (a + b)) p (replicate (length p) 0) = p.
Proof.
  induction 1 as [|x p Hx _ IH]; simpl; [reflexivity|].
  rewrite IH, Z.add_0_r, (wrap64_in_range x Hx). reflexivity.
Qed.

Lemma zip_with_add_assoc (p v1 v2 : list Z) :
  zip_with (λ a b, wrap64 (a + b)) (zip_with (λ a b, wrap64 (a + b)) p v1) v2
  = zip_with (λ a b, wrap64 (a + b)) p (zip_with (λ a b, wrap64 (a + b)) v1 v2).
Proof.
  revert v1 v2. induction p as [|x p IH]; intros [|y v1] [|z v2]; simpl;
    try reflexivity.
  rewrite IH, wrap64_add_assoc. reflexivity.
Qed.

(** X22: on [int64] vectors of one length the flat [exp] and [log] are
    translations: [log(p, p)] is the zero vector, [exp] of the zero vector
    at [p] is [p], and two successive [exp] steps are one step along the sum
    of the two tangent vectors, wrap-around included. *)
Theorem flat_exp_is_translation (self : FlatRiemannianMetric.t)
    (p v1 v2 : list Z) :
  length v1 = length p →
  length v2 = length p →
  Forall in_int64 p →
  FlatRiemannianMetric.log (H := vector_arith int64_scalar) self p p
  = Returns (replicate (length p) 0)
  ∧ FlatRiemannianMetric.exp (H := vector_arith int64_scalar) self
      (replicate (length p) 0) p
    = Returns p
  ∧ outcome_bind
      (FlatRiemannianMetric.exp (H := vector_arith int64_scalar) self v1 p)
      (λ q, FlatRiemannianMetric.exp (H := vector_arith int64_scalar) self v2 q)
    = outcome_bind
        (arr_add (ArrayArith := vector_arith int64_scalar) v1 v2)
        (λ v, FlatRiemannianMetric.exp (H := vector_arith int64_scalar) self v p).
Proof.
  intros H1 H2 Hp.
  unfold FlatRiemannianMetric.log, FlatRiemannianMetric.exp. simpl.
  split; [|split].
  - rewrite elementwise_same_length by reflexivity.
    f_equal. apply zip_with_sub_self.
  - rewrite elementwise_same_length by (rewrite length_replicate; reflexivity).
    f_equal. apply zip_with_add_zeros. exact Hp.
  - rewrite (elementwise_same_length _ p v1) by congruence.
    rewrite (elementwise_same_length _ v1 v2) by congruence. simpl.
    rewrite !elementwise_same_length by (rewrite length_zip_with; lia).
    f_equal. apply zip_with_add_assoc.
Qed.

Lemma flat_exp_is_translation_witness :
  FlatRiemannianMetric.log (H := vector_arith int64_scalar) plane_metric
    [3; -7] [3; -7]
  = Returns [0; 0]
  ∧ FlatRiemannianMetric.exp (H := vector_arith int64_scalar) plane_metric
      [0; 0] [3; -7]
    = Returns [3; -7]
  ∧ outcome_bind
      (FlatRiemannianMetric.exp (H := vector_arith int64_scalar) plane_metric
         [9223372036854775807; 1] [3; -7])
      (λ q, FlatRiemannianMetric.exp (H := vector_arith int64_scalar)
              plane_metric [-9223372036854775807; 1] q)
    = outcome_bind
        (arr_add (ArrayArith := vector_arith int64_scalar)
           [9223372036854775807; 1] [-9223372036854775807; 1])
        (λ v, FlatRiemannianMetric.exp (H := vector_arith int64_scalar)
                plane_metric v [3; -7]).
Proof.
  apply (flat_exp_is_translation plane_metric [3; -7]
           [9223372036854775807; 1] [-9223372036854775807; 1]).
  - reflexivity.
  - reflexivity.
  - repeat constructor; unfold in_int64; lia.
Defined.

(** * A fixed point of the Weiszfeld rounds *)

(** X11: with [verbose] bound to [None], a fit that starts at a point whose
    distances to the samples sum to zero never leaves it: every round takes
    the zero-distance exit, nothing is divided, and [estimate_] is the
    starting point, for any weights and any [max_iter]. *)
Theorem weiszfeld_fit_zero_distance_fixed_point {P T}
    (self : WeiszfeldAlgorithm.t P T) (X : list P) (weights : option (list Q))
    (p0 : P) :
  WeiszfeldAlgorithm.verbose self = Attribute None →
  WeiszfeldAlgorithm.initial_median self X = ret p0 →
  (gs_sum (map (WeiszfeldAlgorithm.dist (WeiszfeldAlgorithm.metric self) p0) X)
   == 0)%Q →
  ∃ self',
    WeiszfeldAlgorithm.fit self X weights = ([], Returns self')
    ∧ WeiszfeldAlgorithm.estimate_ self' = Some p0.
Proof.
  intros Hv Hinit Hsum. apply Qeq_bool_iff in Hsum.
  assert (Hround : ∀ w iter,
            WeiszfeldAlgorithm.fit_body self X w iter p0 = ret p0).
  { intros w iter.
    unfold WeiszfeldAlgorithm.fit_body, WeiszfeldAlgorithm.single_iteration.
    rewrite Hsum, bind_ret_l. unfold WeiszfeldAlgorithm.get_verbose.
    rewrite Hv, bind_ret_l. reflexivity. }
  assert (Hloop : ∀ w iters,
            for_each iters (WeiszfeldAlgorithm.fit_body self X w) p0 = ret p0).
  { intros w iters. induction iters as [|i iters IH]; [reflexivity|].
    simpl. rewrite Hround, bind_ret_l. exact IH. }
  unfold WeiszfeldAlgorithm.fit, WeiszfeldAlgorithm.run_loop.
  rewrite Hinit, bind_ret_l, Hloop, bind_ret_l.
  eexists. split; reflexivity.
Qed.

Lemma weiszfeld_fit_zero_distance_fixed_point_witness :
  ∃ self',
    WeiszfeldAlgorithm.fit half_step_weiszfeld_at_sample
      [(4 # 1)%Q; (4 # 1)%Q; (4 # 1)%Q] (Some [1%Q; 0%Q; 7%Q])
    = ([], Returns self')
    ∧ WeiszfeldAlgorithm.estimate_ self' = Some (4 # 1)%Q.
Proof.
  apply (weiszfeld_fit_zero_distance_fixed_point half_step_weiszfeld_at_sample
           [(4 # 1)%Q; (4 # 1)%Q; (4 # 1)%Q] (Some [1%Q; 0%Q; 7%Q]) (4 # 1)%Q).
  - reflexivity.
  - reflexivity.
  - vm_compute. reflexivity.
Defined.
